(** * ColossalAI: process-group topology and parameter sharding

    A shallow embedding of
    - [colossalai/tensor/process_group.py]  ([PyTorchProcessGroupDict], [ProcessGroup])
    - [colossalai/zero/shard_param/shard_param.py]  ([ShardParam])
    together with the properties of the design document that concern them.

    Python integers are [Z]; list positions produced by [range] are [Z] as
    well and go through Python's indexing rules ([getitem]).  Exceptions are
    values of [exn], carried by [result]; code that touches the process-wide
    group cache runs in the state-and-exception monad [M]. *)

From stdpp Require Import gmap strings list fin_maps sorting.
From Stdlib Require Import ZArith Lia.

Local Open Scope Z_scope.

(** ** Python exceptions *)

Inductive exn : Type :=
  | AssertionError
  | AttributeError
  | TypeError
  | IndexError
  | ZeroDivisionError
  | ValueError
  | RuntimeError.

Inductive result (A : Type) : Type :=
  | Ok (a : A)
  | Raise (e : exn).
Arguments Ok {A} a.
Arguments Raise {A} e.

Definition rbind {A B} (r : result A) (k : A → result B) : result B :=
  match r with
  | Ok a => k a
  | Raise e => Raise e
  end.

Definition failed {A} (r : result A) : Prop :=
  match r with
  | Ok _ => False
  | Raise _ => True
  end.

Declare Scope py_scope.
Delimit Scope py_scope with py.
Notation "x ← r ; k" := (rbind r (fun x => k))
  (at level 20, r at level 100, k at level 200, only parsing) : py_scope.

(** [l[k]] for a Python list: a negative index counts from the end, an index
    outside [-len, len) raises [IndexError]. *)
Definition getitem {A} (l : list A) (k : Z) : result A :=
  let n := Z.of_nat (length l) in
  let k' := if k <? 0 then k + n else k in
  if (0 <=? k') && (k' <? n) then
    match l !! Z.to_nat k' with
    | Some x => Ok x
    | None => Raise IndexError
    end
  else Raise IndexError.

(** [range(n)]: empty when [n <= 0]. *)
Definition range (n : Z) : list Z := seqZ 0 n.

(** A list comprehension [[f(x) for x in xs]] whose element expression can
    raise. *)
Fixpoint comprehension {A B} (f : A → result B) (xs : list A) : result (list B) :=
  match xs with
  | [] => Ok []
  | x :: xs' =>
      match f x with
      | Ok y =>
          match comprehension f xs' with
          | Ok ys => Ok (y :: ys)
          | Raise e => Raise e
          end
      | Raise e => Raise e
      end
  end.

(** ** shard_param.py *)

(** The element types of torch tensors. *)
Inductive torch_dtype : Type :=
  | float16 | bfloat16 | float32 | float64
  | int8 | int16 | int32 | int64 | uint8 | bool_.

#[global] Instance torch_dtype_eq_dec : EqDecision torch_dtype.
Proof. solve_decision. Defined.

(** Number of elements a shape describes. *)
Definition shape_numel (s : list nat) : nat := foldr Nat.mul 1%nat s.

(** The sizes of a shape after dimension 0; [None] for a tensor of no
    dimension. *)
Definition trailing (s : list nat) : option (list nat) :=
  match s with
  | [] => None
  | _ :: tail => Some tail
  end.

Section shard_param.
(** A tensor is its elements in row-major order, its shape and its dtype.
    The elements are kept abstract; [zero] is the element written by
    [torch.zeros] and [torch.zeros_like].  Device placement ([.cuda()],
    [.to]) changes none of the three and is not represented. *)
Context {T : Type} (zero : T).

Record tensor : Type := Tensor { data : list T; shape : list nat; dtype : torch_dtype }.

Definition numel (t : tensor) : nat := length (data t).

(** [torch.zeros(n)]: one dimension, and torch's default dtype, [float32],
    whatever is done with the tensor afterwards. *)
Definition zeros (n : nat) : tensor :=
  {| data := replicate n zero; shape := [n]; dtype := float32 |}.

(** [torch.cat(ts)], along dimension 0.  The list must not be empty;
    tensors of shape [(0,)] are skipped; the others need at least one
    dimension and the same sizes after dimension 0, and their sizes in
    dimension 0 add up.  The elements are those of the tensors one after
    the other (a skipped tensor has none).  The dtype is that of the
    tensors: [gather] calls [cat] on what [all_gather] has checked to be of
    one dtype. *)
Definition cat (ts : list tensor) : result tensor :=
  match ts with
  | [] => Raise RuntimeError
  | t0 :: _ =>
      let kept := filter (fun t => shape t ≠ [0%nat]) ts in
      match kept with
      | [] => Ok {| data := concat (data <$> ts); shape := [0%nat]; dtype := dtype t0 |}
      | t :: _ =>
          match shape t with
          | [] => Raise RuntimeError
          | _ :: tail =>
              if bool_decide (Forall (fun t' => trailing (shape t') = Some tail) kept) then
                Ok {| data := concat (data <$> ts);
                      shape := foldr Nat.add 0%nat ((fun t' => hd 0%nat (shape t')) <$> kept)
                               :: tail;
                      dtype := dtype t |}
              else Raise RuntimeError
          end
      end
  end.

(** [torch.narrow(t, 0, start, len)]: the rows [start .. start + len - 1] of
    dimension 0.  A tensor of no dimension, and a window that leaves
    dimension 0, are a [RuntimeError]. *)
Definition narrow (t : tensor) (start len : nat) : result tensor :=
  match shape t with
  | [] => Raise RuntimeError
  | n :: tail =>
      if decide (start + len ≤ n)%nat then
        let row := shape_numel tail in
        Ok {| data := take (len * row) (drop (start * row) (data t));
              shape := len :: tail;
              dtype := dtype t |}
      else Raise RuntimeError
  end.

(** [t.view(s)]: the same elements under another shape, which has to
    describe as many elements as [t] holds. *)
Definition view (t : tensor) (s : list nat) : result tensor :=
  if decide (shape_numel s = numel t) then
    Ok {| data := data t; shape := s; dtype := dtype t |}
  else Raise RuntimeError.

Definition ceil_div (n g : nat) : nat := ((n + g - 1) / g)%nat.

(** Modelled from the spec: [get_shard] of
    [colossalai.zero.sharded_model._zero3_utils] is imported by
    [shard_param.py] but is not among the sources.  The design document
    (4.3) gives it: flatten the payload to length [N]; [chunk = ceil(N /
    world_size)]; the shard of [rank] is the slice
    [[rank * chunk, (rank + 1) * chunk)] of the payload padded with zeros,
    where the padding is virtual: the rank copies the elements of the
    payload that fall into its slice and fills the rest of the chunk with
    zeros.  The second component, which [shard] discards, is the number of
    elements filled in.  The design document gives the slice for the ranks
    of the group, [rank < world_size]; every property below that depends on
    the value of a shard assumes such a rank. *)
Definition get_shard (t : tensor) (rank world_size : nat) : tensor * nat :=
  let flat := data t in
  let chunk := ceil_div (length flat) world_size in
  let real := take chunk (drop (rank * chunk) flat) in
  let num_to_pad := (chunk - length real)%nat in
  ({| data := real ++ replicate num_to_pad zero; shape := [chunk]; dtype := dtype t |},
   num_to_pad).

Inductive TensorType : Type := GRAD | DATA.

(** [torch.nn.Parameter]: the data and the gradient (of the same shape). *)
Record nn_Parameter : Type := { p_data : tensor; p_grad : tensor }.

(** The group handle itself is not kept: [world_size] and [local_rank] are
    what [dist.get_world_size] and [dist.get_rank] report for it. *)
Record ShardParam : Type := {
  world_size : nat;
  local_rank : nat;
  _param_payload : tensor;
  _payload_numel : option nat;
  _origin_shape : list nat;
  _origin_numel : nat;
  is_shared : bool
}.

(** [ShardParam.__init__] *)
Definition ShardParam_init (param : nn_Parameter) (tensor_type : TensorType)
    (group_world_size group_rank : nat) : ShardParam :=
  {| world_size := group_world_size;
     local_rank := group_rank;
     _param_payload :=
       match tensor_type with DATA => p_data param | GRAD => p_grad param end;
     _payload_numel := None;
     _origin_shape := shape (p_data param);
     _origin_numel := numel (p_data param);
     is_shared := false |}.

Definition set_payload (self : ShardParam) (p : tensor) (shared : bool) : ShardParam :=
  {| world_size := world_size self;
     local_rank := local_rank self;
     _param_payload := p;
     _payload_numel := _payload_numel self;
     _origin_shape := _origin_shape self;
     _origin_numel := _origin_numel self;
     is_shared := shared |}.

(** [ShardParam.shard] *)
Definition shard (self : ShardParam) : ShardParam :=
  if is_shared self then self
  else
    let '(p, _) := get_shard (_param_payload self) (local_rank self) (world_size self) in
    set_payload self p true.

(** [torch.distributed.all_gather(tensor_list, tensor)].  The call first
    checks that [tensor] and every tensor of [tensor_list] have one dtype,
    and raises [ValueError] otherwise.  Then slot [i] of [tensor_list]
    receives the elements that rank [i] of the group passes to the same
    call, the calling rank's own slot receives those of [tensor]; [peers i]
    is what rank [i] passes.  The collective writes into the buffers it is
    given, which keep their shape and dtype, so a contribution that does not
    have the size of its buffer is an error of the transport. *)
Definition all_gather (peers : nat → tensor) (rank : nat)
    (tensor_list : list tensor) (t : tensor) : result (list tensor) :=
  if bool_decide (Forall (fun buf => dtype buf = dtype t) tensor_list) then
    let sent i := if decide (i = rank) then t else peers i in
    comprehension
      (fun '(i, buf) =>
         if decide (numel (sent i) = numel buf) then
           Ok {| data := data (sent i); shape := shape buf; dtype := dtype buf |}
         else Raise RuntimeError)
      (imap (fun i buf => (i, buf)) tensor_list)
  else Raise ValueError.

(** Lines 51-57 of [gather]: [buffer_list], with the payload in the slot of
    the local rank and zeros of the same size in the other slots. *)
Definition buffers (self : ShardParam) : list tensor :=
  let payload_numel := numel (_param_payload self) in
  (fun i => if decide (i = local_rank self) then _param_payload self
            else zeros payload_numel) <$> seq 0 (world_size self).

(** [ShardParam.gather] ([print(buffer_list)] writes to standard output
    only). *)
Definition gather (peers : nat → tensor) (self : ShardParam) : result ShardParam :=
  if negb (is_shared self) then Ok self
  else
    let buffer_list := buffers self in
    (own ← getitem buffer_list (Z.of_nat (local_rank self));
     buffer_list ← all_gather peers (local_rank self) buffer_list own;
     collected ← cat buffer_list;
     narrowed ← narrow collected 0 (_origin_numel self);
     p ← view narrowed (_origin_shape self);
     Ok (set_payload self p false))%py.

(** What rank [i] of the group holds when it wraps the same tensor. *)
Definition on_rank (i : nat) (self : ShardParam) : ShardParam :=
  {| world_size := world_size self;
     local_rank := i;
     _param_payload := _param_payload self;
     _payload_numel := _payload_numel self;
     _origin_shape := _origin_shape self;
     _origin_numel := _origin_numel self;
     is_shared := is_shared self |}.

(** The state WHOLE of the design document's data model. *)
Definition whole (self : ShardParam) : Prop :=
  is_shared self = false
  ∧ numel (_param_payload self) = _origin_numel self
  ∧ shape (_param_payload self) = _origin_shape self
  ∧ shape_numel (_origin_shape self) = _origin_numel self.

(** The flattened payload padded with zeros to [chunk * world_size]. *)
Definition padded (flat : list T) (g : nat) : list T :=
  flat ++ replicate (ceil_div (length flat) g * g - length flat)%nat zero.

End shard_param.

Arguments tensor T : clear implicits.
Arguments nn_Parameter T : clear implicits.
Arguments ShardParam T : clear implicits.

(** ** process_group.py *)

(** What [torch.distributed] reports to this process. *)
Record dist : Type := {
  is_initialized : bool;
  get_rank : Z;
  get_world_size : Z
}.

(** What [self.dict] stores is the value that a call of
    [torch.distributed.new_group] returned.  A handle names that value by
    its call: it is the position of the call among the [new_group] calls
    this process has made.  Which Python object the call returned depends on
    the process, and two handles may stand for the same object: see
    [returned_object]. *)
Definition GroupHandle : Type := nat.

(** The singleton: [self.dict], keyed by [(backend, rank_tuple)]. *)
Record PyTorchProcessGroupDict : Type := {
  dict : gmap (string * list Z) GroupHandle
}.

(** The state of one process: the module-level singleton [PYTORCHPGDICT_]
    and the [new_group] calls this process has issued to the transport, in
    order, as [(ranks, backend)]. *)
Record process : Type := {
  PYTORCHPGDICT_ : PyTorchProcessGroupDict;
  new_group_calls : list (list Z * string)
}.

Definition fresh_process : process :=
  {| PYTORCHPGDICT_ := {| dict := ∅ |}; new_group_calls := [] |}.

(** Computations that read and update the process state and may raise. *)
Definition M (A : Type) : Type := process → result A * process.

Definition mret {A} (a : A) : M A := fun σ => (Ok a, σ).
Definition raise {A} (e : exn) : M A := fun σ => (Raise e, σ).
Definition mbind {A B} (m : M A) (k : A → M B) : M B :=
  fun σ =>
    match m σ with
    | (Ok a, σ') => k a σ'
    | (Raise e, σ') => (Raise e, σ')
    end.
Definition lift {A} (r : result A) : M A := fun σ => (r, σ).

Notation "x ⇐ m ; k" := (mbind m (fun x => k))
  (at level 20, m at level 100, k at level 200, only parsing) : py_scope.
Notation "' pat ⇐ m ; k" := (mbind m (fun x => match x with pat => k end))
  (at level 20, pat pattern, m at level 100, k at level 200, only parsing) : py_scope.

(** [for x in xs: s = body(x, s)], where [s] stands for the variables the
    body assigns. *)
Fixpoint for_ {A S} (xs : list A) (body : A → S → M S) (s : S) : M S :=
  match xs with
  | [] => mret s
  | x :: xs' => (s' ⇐ body x s; for_ xs' body s')%py
  end.

(** [torch.distributed.new_group(ranks, backend)]: a collective call, which
    is logged, and whose value is named by the position of the call.
    [torch] rejects some arguments, with [RuntimeError] or [ValueError]: a
    rank outside the default group, more ranks than the default group has, a
    backend it does not know.  Such calls are not modelled: [new_group]
    stands for the calls that [torch] accepts. *)
Definition new_group (ranks : list Z) (backend : string) : M GroupHandle :=
  fun σ =>
    (Ok (length (new_group_calls σ)),
     {| PYTORCHPGDICT_ := PYTORCHPGDICT_ σ;
        new_group_calls := new_group_calls σ ++ [(ranks, backend)] |}).

(** The Python object behind a handle.  To a process whose rank in the
    default group is among [ranks], [new_group] returns a new group object,
    one per call; to every other process it returns the one object
    [GroupMember.NON_GROUP_MEMBER], whatever the ranks and the backend. *)
Inductive group_object : Type :=
  | NON_GROUP_MEMBER
  | group_of_call (n : nat).

(** The object that the call named by [h] returned to the process of rank
    [rank]. *)
Definition returned_object (rank : Z) (σ : process) (h : GroupHandle) : option group_object :=
  match new_group_calls σ !! h with
  | Some (ranks, _) =>
      Some (if bool_decide (rank ∈ ranks) then group_of_call h else NON_GROUP_MEMBER)
  | None => None
  end.

Definition dict_store (pg_key : string * list Z) (h : GroupHandle) : M () :=
  fun σ =>
    (Ok (),
     {| PYTORCHPGDICT_ := {| dict := <[pg_key := h]> (dict (PYTORCHPGDICT_ σ)) |};
        new_group_calls := new_group_calls σ |}).

(** [PyTorchProcessGroupDict.get].  [rank_list] is [None] when a caller
    passes Python's [None], on which [tuple] raises [TypeError].  The logger
    call of the miss path only writes a log line. *)
Definition get (rank_list : option (list Z)) (backend : string) : M GroupHandle :=
  match rank_list with
  | None => raise TypeError
  | Some rank_list =>
      let rank_tuple := rank_list in
      let pg_key := (backend, rank_tuple) in
      fun σ =>
        match dict (PYTORCHPGDICT_ σ) !! pg_key with
        | Some h => (Ok h, σ)
        | None =>
            (h ⇐ new_group rank_list backend;
             _ ⇐ dict_store pg_key h;
             mret h)%py σ
        end
  end.

(** The attributes that [__init__] sets once the runtime is initialized. *)
Record attributes : Type := {
  _rank : Z;
  _rank_list : list Z;
  _world_size : Z;
  _dp_degree : Z;
  _tp_degree : Z;
  _tp_rank_list : option (list Z);
  _dp_rank_list : option (list Z);
  _has_cpu_groups : bool
}.

(** A [ProcessGroup] object: [is_init] is always set, the other attributes
    exist only when [__init__] got past its first test; reading an attribute
    that does not exist raises [AttributeError]. *)
Record ProcessGroup : Type := {
  is_init : bool;
  attrs : option attributes
}.

Definition getattr {A} (self : ProcessGroup) (f : attributes → A) : result A :=
  match attrs self with
  | Some a => Ok (f a)
  | None => Raise AttributeError
  end.

(** Python's truth value of an [Optional[int]]: [None] and [0] are false. *)
Definition truthy (o : option Z) : bool :=
  match o with
  | Some v => negb (v =? 0)
  | None => false
  end.

(** Lines 67-83 of [ProcessGroup.__init__]: the pair
    [(_dp_degree, _tp_degree)].  In the last branch a degree that is [None]
    reaches the product of the assertion, a [TypeError]. *)
Definition resolve_degrees (world_size : Z) (tp_degree dp_degree : option Z)
    : result (Z * Z) :=
  match dp_degree, tp_degree with
  | None, None => Ok (world_size, 1)
  | _, _ =>
      if truthy dp_degree && negb (truthy tp_degree) then
        let dp := default 0 dp_degree in
        if world_size `mod` dp =? 0 then Ok (dp, world_size `div` dp)
        else Raise AssertionError
      else if negb (truthy dp_degree) && truthy tp_degree then
        let tp := default 0 tp_degree in
        if world_size `mod` tp =? 0 then Ok (world_size `div` tp, tp)
        else Raise AssertionError
      else
        match dp_degree, tp_degree with
        | Some dp, Some tp =>
            if dp * tp =? world_size then Ok (dp, tp) else Raise AssertionError
        | _, _ => Raise TypeError
        end
  end.

(** [[rank_list[i * tp + j] for j in range(tp)]] *)
Definition i_tp_list (rank_list : list Z) (tp i : Z) : result (list Z) :=
  comprehension (fun j => getitem rank_list (i * tp + j)) (range tp).

(** [[rank_list[i * tp + j] for i in range(dp)]] *)
Definition j_dp_list (rank_list : list Z) (tp dp j : Z) : result (list Z) :=
  comprehension (fun i => getitem rank_list (i * tp + j)) (range dp).

(** The two loops of [__init__] (lines 88-98); each returns the value its
    loop leaves in [_tp_rank_list], respectively [_dp_rank_list]. *)
Definition init_rows (rank : Z) (rank_list : list Z) (tp dp : Z) : M (option (list Z)) :=
  for_ (range dp)
    (fun i cur =>
       (l ⇐ lift (i_tp_list rank_list tp i);
        _ ⇐ get (Some l) "nccl";
        mret (if bool_decide (rank ∈ l) then Some l else cur))%py)
    None.

Definition init_cols (rank : Z) (rank_list : list Z) (tp dp : Z) : M (option (list Z)) :=
  for_ (range tp)
    (fun j cur =>
       (l ⇐ lift (j_dp_list rank_list tp dp j);
        _ ⇐ get (Some l) "nccl";
        mret (if bool_decide (rank ∈ l) then Some l else cur))%py)
    None.

(** Lines 54-57 of [__init__]: [self._rank]. *)
Definition self_rank (rt : dist) (rank : option Z) : Z :=
  match rank with
  | None => get_rank rt
  | Some r => r
  end.

(** Lines 59-63 of [__init__]: [self._rank_list]; [ranks.sort()] sorts in
    ascending order. *)
Definition world_ranks (rt : dist) (ranks : option (list Z)) : list Z :=
  match ranks with
  | None => range (get_world_size rt)
  | Some l => merge_sort Z.le l
  end.

(** [ProcessGroup.__init__]; the result is the constructed object. *)
Definition ProcessGroup_init (rt : dist) (rank : option Z) (ranks : option (list Z))
    (tp_degree dp_degree : option Z) : M ProcessGroup :=
  if negb (is_initialized rt) then mret {| is_init := false; attrs := None |}
  else
    let rank := self_rank rt rank in
    let rank_list := world_ranks rt ranks in
    let world_size := Z.of_nat (length rank_list) in
    ('(dp, tp) ⇐ lift (resolve_degrees world_size tp_degree dp_degree);
     tp_rank_list ⇐ init_rows rank rank_list tp dp;
     dp_rank_list ⇐ init_cols rank rank_list tp dp;
     mret {| is_init := true;
             attrs := Some {| _rank := rank;
                              _rank_list := rank_list;
                              _world_size := world_size;
                              _dp_degree := dp;
                              _tp_degree := tp;
                              _tp_rank_list := tp_rank_list;
                              _dp_rank_list := dp_rank_list;
                              _has_cpu_groups := false |} |})%py.

Definition set_has_cpu_groups (a : attributes) (b : bool) : attributes :=
  {| _rank := _rank a;
     _rank_list := _rank_list a;
     _world_size := _world_size a;
     _dp_degree := _dp_degree a;
     _tp_degree := _tp_degree a;
     _tp_rank_list := _tp_rank_list a;
     _dp_rank_list := _dp_rank_list a;
     _has_cpu_groups := b |}.

(** The property [has_cpu_groups]. *)
Definition has_cpu_groups (self : ProcessGroup) : result bool :=
  getattr self _has_cpu_groups.

(** [ProcessGroup.set_cpu_groups]; the result is the object after the call. *)
Definition set_cpu_groups (self : ProcessGroup) : M ProcessGroup :=
  (flag ⇐ lift (has_cpu_groups self);
   if flag : bool then mret self
   else
     a ⇐ lift (getattr self id);
     _ ⇐ for_ (range (_dp_degree a))
           (fun i (_ : ()) =>
              l ⇐ lift (i_tp_list (_rank_list a) (_tp_degree a) i);
              _ ⇐ get (Some l) "gloo";
              mret ()) ();
     _ ⇐ for_ (range (_tp_degree a))
           (fun j (_ : ()) =>
              l ⇐ lift (j_dp_list (_rank_list a) (_tp_degree a) (_dp_degree a) j);
              _ ⇐ get (Some l) "gloo";
              mret ()) ();
     mret {| is_init := is_init self; attrs := Some (set_has_cpu_groups a true) |})%py.

(** *** Accessors *)

Definition rank (self : ProcessGroup) : result Z := getattr self _rank.
Definition ranks_in_group (self : ProcessGroup) : result (list Z) := getattr self _rank_list.
Definition pg_world_size (self : ProcessGroup) : result Z := getattr self _world_size.
Definition tp_rank_list (self : ProcessGroup) : result (option (list Z)) :=
  getattr self _tp_rank_list.
Definition dp_rank_list (self : ProcessGroup) : result (option (list Z)) :=
  getattr self _dp_rank_list.
Definition get_ranks_in_dp (self : ProcessGroup) : result (option (list Z)) :=
  getattr self _dp_rank_list.
Definition get_ranks_in_tp (self : ProcessGroup) : result (option (list Z)) :=
  getattr self _tp_rank_list.

(** [a % b] and [a // b] on Python integers: floor division, as [Z.modulo]
    and [Z.div]; a zero divisor raises. *)
Definition py_mod (a b : Z) : result Z :=
  if b =? 0 then Raise ZeroDivisionError else Ok (a `mod` b).
Definition py_floordiv (a b : Z) : result Z :=
  if b =? 0 then Raise ZeroDivisionError else Ok (a `div` b).

Definition tp_local_rank (self : ProcessGroup) : result Z :=
  (r ← getattr self _rank; tp ← getattr self _tp_degree; py_mod r tp)%py.
Definition dp_local_rank (self : ProcessGroup) : result Z :=
  (r ← getattr self _rank; tp ← getattr self _tp_degree; py_floordiv r tp)%py.

(** [len(x)] where [x] may be [None]. *)
Definition len (x : option (list Z)) : result Z :=
  match x with
  | Some l => Ok (Z.of_nat (length l))
  | None => Raise TypeError
  end.

Definition dp_world_size (self : ProcessGroup) : result Z :=
  (l ← getattr self _dp_rank_list; len l)%py.
Definition tp_world_size (self : ProcessGroup) : result Z :=
  (l ← getattr self _tp_rank_list; len l)%py.

Definition dp_process_group (self : ProcessGroup) : M GroupHandle :=
  (l ⇐ lift (getattr self _dp_rank_list); get l "nccl")%py.
Definition tp_process_group (self : ProcessGroup) : M GroupHandle :=
  (l ⇐ lift (getattr self _tp_rank_list); get l "nccl")%py.

Definition py_assert (b : bool) : M () :=
  if b then mret () else raise AssertionError.

Definition cpu_dp_process_group (self : ProcessGroup) : M GroupHandle :=
  (flag ⇐ lift (getattr self _has_cpu_groups);
   _ ⇐ py_assert flag;
   l ⇐ lift (getattr self _dp_rank_list);
   get l "gloo")%py.
Definition cpu_tp_process_group (self : ProcessGroup) : M GroupHandle :=
  (flag ⇐ lift (getattr self _has_cpu_groups);
   _ ⇐ py_assert flag;
   l ⇐ lift (getattr self _tp_rank_list);
   get l "gloo")%py.

(** *** The grid, as the design document describes it *)

(** Row [i]: the ranks at positions [[i * tp, i * tp + tp)]. *)
Definition grid_row (world_ranks : list Z) (tp i : Z) : list Z :=
  take (Z.to_nat tp) (drop (Z.to_nat (i * tp)) world_ranks).

(** Column [j]: the ranks at positions [i * tp + j] for [i] in [[0, dp)]. *)
Definition grid_col (world_ranks : list Z) (tp dp j : Z) : list Z :=
  omap (fun i => world_ranks !! Z.to_nat (i * tp + j)) (range dp).

Definition grid_rows (world_ranks : list Z) (tp dp : Z) : list (list Z) :=
  grid_row world_ranks tp <$> range dp.
Definition grid_cols (world_ranks : list Z) (tp dp : Z) : list (list Z) :=
  grid_col world_ranks tp dp <$> range tp.

(** Registering a sequence of rank lists, one [get] after the other. *)
Definition register_all (backend : string) (groups : list (list Z)) (σ : process) : process :=
  foldl (fun σ l => (get (Some l) backend σ).2) σ groups.

(** The value a loop of [__init__] leaves in [_tp_rank_list] or
    [_dp_rank_list]: the last group that contains [rank], [None] when no
    group does. *)
Definition pick (rank : Z) (groups : list (list Z)) : option (list Z) :=
  foldl (fun cur l => if bool_decide (rank ∈ l) then Some l else cur) None groups.

(** Handles stored in the cache name calls already made, and no two keys
    hold the value of the same call; this holds in a fresh process and [get]
    keeps it. *)
Definition cache_wf (σ : process) : Prop :=
  (∀ k h, dict (PYTORCHPGDICT_ σ) !! k = Some h → (h < length (new_group_calls σ))%nat)
  ∧ (∀ k k' h, dict (PYTORCHPGDICT_ σ) !! k = Some h →
               dict (PYTORCHPGDICT_ σ) !! k' = Some h → k = k').

(** The degrees of a constructed object, [(_dp_degree, _tp_degree)]. *)
Definition degrees_of (r : result ProcessGroup) : option (Z * Z) :=
  match r with
  | Ok pg => (fun a => (_dp_degree a, _tp_degree a)) <$> attrs pg
  | Raise _ => None
  end.

(** The object that a construction returns once the runtime is initialized
    and the degrees have resolved to [dp] and [tp]. *)
Definition constructed (rt : dist) (rank : option Z) (ranks : option (list Z))
    (dp tp : Z) : ProcessGroup :=
  let l := world_ranks rt ranks in
  {| is_init := true;
     attrs := Some {| _rank := self_rank rt rank;
                      _rank_list := l;
                      _world_size := Z.of_nat (length l);
                      _dp_degree := dp;
                      _tp_degree := tp;
                      _tp_rank_list := pick (self_rank rt rank) (grid_rows l tp dp);
                      _dp_rank_list := pick (self_rank rt rank) (grid_cols l tp dp);
                      _has_cpu_groups := false |} |}.

(** ** Concrete objects used in the examples *)

Definition four_ranks : dist :=
  {| is_initialized := true; get_rank := 1; get_world_size := 4 |}.
Definition six_ranks : dist :=
  {| is_initialized := true; get_rank := 0; get_world_size := 6 |}.
Definition no_runtime : dist :=
  {| is_initialized := false; get_rank := 0; get_world_size := 0 |}.

Definition four_ranks_seen_from_3 : dist :=
  {| is_initialized := true; get_rank := 3; get_world_size := 4 |}.

(** The scenario of the design document: ranks [0 .. 3] as a 2 x 2 grid,
    seen from rank 1. *)
Definition two_by_two_attrs : attributes :=
  {| _rank := 1;
     _rank_list := [0; 1; 2; 3];
     _world_size := 4;
     _dp_degree := 2;
     _tp_degree := 2;
     _tp_rank_list := Some [0; 1];
     _dp_rank_list := Some [1; 3];
     _has_cpu_groups := false |}.
Definition two_by_two : ProcessGroup :=
  {| is_init := true; attrs := Some two_by_two_attrs |}.
Definition after_two_by_two : process :=
  (ProcessGroup_init four_ranks (Some 1) (Some [3; 1; 0; 2]) (Some 2) (Some 2) fresh_process).2.

(** Ten elements of shape [2 x 5] on the last rank of a group of four. *)
Definition ten_by_four : ShardParam Z :=
  ShardParam_init
    {| p_data := {| data := [1; 2; 3; 4; 5; 6; 7; 8; 9; 10]; shape := [2; 5]%nat; dtype := float32 |};
       p_grad := {| data := [0; 0; 0; 0; 0; 0; 0; 0; 0; 0]; shape := [2; 5]%nat; dtype := float32 |} |}
    DATA 4 3.

(** The same tensor with elements of dtype [int64]. *)
Definition ten_by_four_int64 : ShardParam Z :=
  ShardParam_init
    {| p_data := {| data := [1; 2; 3; 4; 5; 6; 7; 8; 9; 10]; shape := [2; 5]%nat;
                    dtype := int64 |};
       p_grad := {| data := [0; 0; 0; 0; 0; 0; 0; 0; 0; 0]; shape := [2; 5]%nat;
                    dtype := int64 |} |}
    DATA 4 3.

(** A sharded object of a group of four whose payload has five elements,
    although ten original elements call for chunks of three; every peer
    contributes five elements as well. *)
Definition five_per_rank : ShardParam Z :=
  {| world_size := 4;
     local_rank := 0;
     _param_payload := {| data := [1; 2; 3; 4; 5]; shape := [5%nat]; dtype := float32 |};
     _payload_numel := None;
     _origin_shape := [10%nat];
     _origin_numel := 10;
     is_shared := true |}.
Definition five_per_rank_peers (i : nat) : tensor Z :=
  {| data := [Z.of_nat i; 2; 3; 4; 5]; shape := [5%nat]; dtype := float32 |}.

(** ** Further definitions of process_group.py *)

(** The argument of [__eq__]: a [ProcessGroup], or an object of another
    class, on which [isinstance] is false. *)
Inductive object : Type :=
  | a_ProcessGroup (pg : ProcessGroup)
  | another_object.

(** [ProcessGroup.__eq__]: the six comparisons in the order of the source;
    each reads the attribute of [self] first, then that of [obj]. *)
Definition ProcessGroup_eq (self : ProcessGroup) (obj : object) : result bool :=
  match obj with
  | another_object => Ok false
  | a_ProcessGroup obj =>
      (r ← getattr self _rank; r' ← getattr obj _rank;
       if negb (bool_decide (r = r')) then Ok false
       else
         l ← getattr self _rank_list; l' ← getattr obj _rank_list;
         if negb (bool_decide (l = l')) then Ok false
         else
           t ← getattr self _tp_rank_list; t' ← getattr obj _tp_rank_list;
           if negb (bool_decide (t = t')) then Ok false
           else
             d ← getattr self _dp_rank_list; d' ← getattr obj _dp_rank_list;
             if negb (bool_decide (d = d')) then Ok false
             else
               tp ← getattr self _tp_degree; tp' ← getattr obj _tp_degree;
               if negb (bool_decide (tp = tp')) then Ok false
               else
                 dp ← getattr self _dp_degree; dp' ← getattr obj _dp_degree;
                 if negb (bool_decide (dp = dp')) then Ok false
                 else Ok true)%py
  end.

(** A sequence of [get] calls, each on the state the one before left;
    a call that raises leaves the state to the next one. *)
Definition serve (requests : list (option (list Z) * string)) (σ : process) : process :=
  foldl (fun σ '(rank_list, backend) => (get rank_list backend σ).2) σ requests.

(** The cache and the call log agree: besides [cache_wf], every cached
    handle names the [new_group] call with the ranks and the backend of its
    key.  This is so in a process whose cache only [get] has filled. *)
Definition cache_consistent (σ : process) : Prop :=
  cache_wf σ
  ∧ ∀ b l h, dict (PYTORCHPGDICT_ σ) !! (b, l) = Some h →
             new_group_calls σ !! h = Some (l, b).

(** The attributes that [__eq__] compares. *)
Definition same_topology (a a' : attributes) : Prop :=
  _rank a = _rank a'
  ∧ _rank_list a = _rank_list a'
  ∧ _tp_rank_list a = _tp_rank_list a'
  ∧ _dp_rank_list a = _dp_rank_list a'
  ∧ _tp_degree a = _tp_degree a'
  ∧ _dp_degree a = _dp_degree a'.

(** An object of the 2 x 2 grid with its CPU groups, and the process that
    holds them. *)
Definition two_by_two_cpu : ProcessGroup :=
  {| is_init := true; attrs := Some (set_has_cpu_groups two_by_two_attrs true) |}.
Definition after_two_by_two_cpu : process :=
  (set_cpu_groups two_by_two after_two_by_two).2.

(** Case analysis on every integer comparison [a =? b] of the goal. *)
Ltac eqb_cases :=
  repeat match goal with
         | |- context [?a =? ?b] => destruct (Z.eqb_spec a b); cbn
         end.

(** * Properties *)

(** ** Exceptions and comprehensions *)

Lemma comprehension_ok {A B} (f : A → result B) (g : A → B) (xs : list A) :
  (∀ x, x ∈ xs → f x = Ok (g x)) → comprehension f xs = Ok (g <$> xs).
Proof.
  induction xs as [|x xs IH]; intros Hf; [done|].
  cbn. rewrite (Hf x) by constructor.
  rewrite IH; [done|]. intros y Hy. apply Hf. by constructor.
Qed.

Lemma comprehension_raise {A B} (f : A → result B) (xs : list A) (x : A) e :
  x ∈ xs → (∀ y, y ∈ xs → f y = Raise e ∨ ∃ b, f y = Ok b) → f x = Raise e →
  comprehension f xs = Raise e.
Proof.
  induction xs as [|y xs IH]; intros Hx Hall Hfx; [by inversion Hx|].
  cbn. destruct (Hall y) as [->|[b Hb]]; [by constructor|done|].
  rewrite Hb. apply elem_of_cons in Hx as [->|Hx]; [congruence|].
  rewrite IH; [done|done| |done].
  intros z Hz. apply Hall. by constructor.
Qed.

Lemma getitem_nat {A} (l : list A) (k : nat) (x : A) :
  l !! k = Some x → getitem l (Z.of_nat k) = Ok x.
Proof.
  intros Hk. pose proof (lookup_lt_Some _ _ _ Hk) as Hlt.
  unfold getitem.
  destruct (Z.ltb_spec (Z.of_nat k) 0) as [?|_]; [lia|].
  destruct (Z.leb_spec 0 (Z.of_nat k)) as [_|?]; [|lia].
  destruct (Z.ltb_spec (Z.of_nat k) (Z.of_nat (length l))) as [_|?]; [|lia].
  cbn. by rewrite Nat2Z.id, Hk.
Qed.

Lemma getitem_nat_out {A} (l : list A) (k : nat) :
  (length l ≤ k)%nat → getitem l (Z.of_nat k) = Raise IndexError.
Proof.
  intros Hk. unfold getitem.
  destruct (Z.ltb_spec (Z.of_nat k) 0) as [?|_]; [lia|].
  destruct (Z.ltb_spec (Z.of_nat k) (Z.of_nat (length l))) as [?|_]; [lia|].
  by rewrite andb_false_r.
Qed.

(** ** Sharding *)

Section shard_properties.
Context {T : Type} (zero : T).
Implicit Types (l m : list T) (t : tensor T) (self : ShardParam T).

Lemma ceil_div_covers (n g : nat) : (1 ≤ g)%nat → (n ≤ ceil_div n g * g)%nat.
Proof.
  intros Hg. unfold ceil_div.
  pose proof (Nat.div_mod (n + g - 1) g ltac:(lia)) as Hdm.
  pose proof (Nat.mod_upper_bound (n + g - 1) g ltac:(lia)) as Hlt.
  nia.
Qed.

Lemma ceil_div_tight (n g : nat) : (1 ≤ g)%nat → (ceil_div n g * g < n + g)%nat.
Proof.
  intros Hg. unfold ceil_div.
  pose proof (Nat.div_mod (n + g - 1) g ltac:(lia)) as Hdm.
  nia.
Qed.

Lemma length_padded l (g : nat) :
  (1 ≤ g)%nat → length (padded zero l g) = (ceil_div (length l) g * g)%nat.
Proof.
  intros Hg. unfold padded. rewrite length_app, length_replicate.
  pose proof (ceil_div_covers (length l) g Hg). lia.
Qed.

(** The shard that [get_shard] builds with virtual padding is the slice
    of the materialized padded payload. *)
Lemma get_shard_data t (k g : nat) :
  (k < g)%nat →
  data (get_shard zero t k g).1 =
    take (ceil_div (numel t) g) (drop (k * ceil_div (numel t) g) (padded zero (data t) g)).
Proof.
  intros Hk. unfold get_shard, numel, padded. cbn.
  set (l := data t). set (c := ceil_div (length l) g).
  pose proof (ceil_div_covers (length l) g ltac:(lia)) as Hcov. fold c in Hcov.
  assert (k * c + c ≤ c * g)%nat as Hin by nia.
  rewrite drop_app, take_app, drop_replicate, take_replicate.
  f_equal. f_equal.
  rewrite length_take, !length_drop. lia.
Qed.

Lemma get_shard_numel t (k g : nat) :
  numel (get_shard zero t k g).1 = ceil_div (numel t) g.
Proof.
  unfold get_shard, numel. cbn.
  rewrite length_app, length_replicate, length_take, length_drop. lia.
Qed.

Lemma get_shard_shape t (k g : nat) :
  shape (get_shard zero t k g).1 = [ceil_div (numel t) g].
Proof. done. Qed.

(** [__init__] on a parameter whose shape describes its elements gives a
    WHOLE object. *)
Lemma ShardParam_init_whole (param : nn_Parameter T) (g k : nat) :
  shape_numel (shape (p_data param)) = numel (p_data param) →
  whole (ShardParam_init param DATA g k).
Proof. intros Hshape. by repeat split. Qed.

Lemma shard_whole self :
  is_shared self = false →
  shard zero self =
    set_payload self (get_shard zero (_param_payload self) (local_rank self) (world_size self)).1 true.
Proof. intros Hw. unfold shard. rewrite Hw. by destruct (get_shard _ _ _ _). Qed.

Lemma shard_shared self : is_shared self = true → shard zero self = self.
Proof. intros Hs. unfold shard. by rewrite Hs. Qed.

(** C6.  On a WHOLE tensor of [N] elements, [shard] on rank [k] of a group
    of size [G] leaves as payload the slice [[k * chunk, (k + 1) * chunk)]
    of the flattened payload padded with zeros to [chunk * G], where
    [chunk = ceil(N / G)]; the payload then has exactly [chunk] elements
    and the tensor is in the sharded state. *)
Theorem shard_payload_is_padded_slice self :
  whole self →
  (local_rank self < world_size self)%nat →
  let N := _origin_numel self in
  let G := world_size self in
  let k := local_rank self in
  let chunk := ceil_div N G in
  data (_param_payload (shard zero self)) =
    take chunk (drop (k * chunk) (padded zero (data (_param_payload self)) G))
  ∧ length (padded zero (data (_param_payload self)) G) = (chunk * G)%nat
  ∧ numel (_param_payload (shard zero self)) = chunk
  ∧ is_shared (shard zero self) = true.
Proof.
  intros (Hw & Hn & _ & _) Hk. cbn zeta.
  rewrite shard_whole by done. unfold set_payload. cbn [_param_payload is_shared].
  rewrite get_shard_data, get_shard_numel, length_padded by lia.
  unfold numel in *. by rewrite Hn.
Qed.


(** *** Gathering *)

(** The payload has the dtype of the buffers [gather] allocates, or there is
    no other buffer. *)
Lemma buffers_dtype self :
  (local_rank self < world_size self)%nat →
  dtype (_param_payload self) = float32 ∨ world_size self = 1%nat →
  Forall (fun buf => dtype buf = dtype (_param_payload self)) (buffers zero self).
Proof.
  intros Hk Hd. unfold buffers. apply Forall_fmap, Forall_forall.
  intros i Hi%elem_of_seq. cbn. case_decide; [done|].
  destruct Hd as [->|Hone]; [done|lia].
Qed.

Lemma buffers_mixed_dtype self :
  (local_rank self < world_size self)%nat →
  (2 ≤ world_size self)%nat →
  dtype (_param_payload self) ≠ float32 →
  ¬ Forall (fun buf => dtype buf = dtype (_param_payload self)) (buffers zero self).
Proof.
  intros Hk Hg Hd Hall. unfold buffers in Hall.
  rewrite Forall_fmap, Forall_forall in Hall.
  set (i := if decide (local_rank self = 0%nat) then 1%nat else 0%nat).
  assert (i ≠ local_rank self ∧ (i < world_size self)%nat) as [Hne Hlt].
  { unfold i. case_decide; lia. }
  specialize (Hall i). cbn in Hall. rewrite decide_False in Hall by done.
  symmetry in Hall. apply Hd, Hall, elem_of_seq. lia.
Qed.

Lemma all_gather_ok (peers : nat → tensor T) (k : nat) (bufs : list (tensor T)) own :
  Forall (fun buf => dtype buf = dtype own) bufs →
  (∀ i buf, bufs !! i = Some buf →
     numel (if decide (i = k) then own else peers i) = numel buf) →
  all_gather peers k bufs own =
    Ok (imap (fun i buf =>
                {| data := data (if decide (i = k) then own else peers i);
                   shape := shape buf;
                   dtype := dtype buf |}) bufs).
Proof.
  intros Hdt Hsz. unfold all_gather. rewrite bool_decide_eq_true_2 by done.
  erewrite (comprehension_ok _
    (fun '(i, buf) => {| data := data (if decide (i = k) then own else peers i);
                         shape := shape buf;
                         dtype := dtype buf |})).
  - by rewrite fmap_imap.
  - intros [i buf] Hin. apply elem_of_lookup_imap_1 in Hin as (j & b & [= -> ->] & Hj).
    by rewrite decide_True by eauto.
Qed.

Lemma all_gather_mixed_dtype (peers : nat → tensor T) (k : nat) (bufs : list (tensor T)) own :
  ¬ Forall (fun buf => dtype buf = dtype own) bufs →
  all_gather peers k bufs own = Raise ValueError.
Proof. intros Hdt. unfold all_gather. by rewrite bool_decide_eq_false_2. Qed.

Lemma concat_chunks m (c g : nat) :
  concat ((fun i => take c (drop (i * c) m)) <$> seq 0 g) = take (g * c) m.
Proof.
  induction g as [|g IH]; [done|].
  rewrite seq_S, fmap_app, concat_app, IH. cbn.
  rewrite app_nil_r, take_take_drop. f_equal. lia.
Qed.

Lemma buffers_lookup self (i : nat) buf :
  buffers zero self !! i = Some buf →
  (i < world_size self)%nat ∧ numel buf = numel (_param_payload self)
  ∧ (i = local_rank self → buf = _param_payload self).
Proof.
  unfold buffers. rewrite list_lookup_fmap.
  destruct (seq 0 (world_size self) !! i) as [j|] eqn:Hj; [|done].
  apply lookup_seq in Hj as [-> Hlt]. cbn. intros [= <-].
  split; [done|]. case_decide; split; try done.
  unfold numel, zeros. cbn. by rewrite length_replicate.
Qed.

Lemma buffers_own self :
  (local_rank self < world_size self)%nat →
  getitem (buffers zero self) (Z.of_nat (local_rank self)) = Ok (_param_payload self).
Proof.
  intros Hk. apply getitem_nat. unfold buffers.
  rewrite list_lookup_fmap, lookup_seq_lt by done. cbn. by rewrite decide_True.
Qed.

(** *** [cat], [narrow] and [view] *)

Lemma cat_data (ts : list (tensor T)) c :
  cat ts = Ok c → data c = concat (data <$> ts).
Proof.
  unfold cat. destruct ts as [|t0 ts]; [done|].
  destruct (filter _ _) as [|t kept]; [by intros [= <-]|].
  destruct (shape t) as [|n tail]; [done|].
  case_bool_decide; [by intros [= <-]|done].
Qed.

Lemma flat_kept_sum (ts : list (tensor T)) :
  (∀ t, t ∈ ts → shape t = [numel t]) →
  foldr Nat.add 0%nat
    ((fun t => hd 0%nat (shape t)) <$> filter (fun t => shape t ≠ [0%nat]) ts)
  = length (concat (data <$> ts)).
Proof.
  induction ts as [|t ts IH]; intros Hflat; [done|].
  pose proof (Hflat t ltac:(constructor)) as Ht.
  assert (∀ t', t' ∈ ts → shape t' = [numel t']) as Hrest
    by (intros t' Ht'; apply Hflat; by constructor).
  cbn [fmap list_fmap concat]. rewrite length_app, filter_cons.
  case_decide as Hkeep.
  - cbn. rewrite IH by done. rewrite Ht. done.
  - rewrite IH by done. rewrite Ht in Hkeep.
    injection Hkeep as Hz. unfold numel in Hz. lia.
Qed.

(** [cat] of one-dimensional tensors of one dtype. *)
Lemma cat_flat (ts : list (tensor T)) (t0 : tensor T) :
  head ts = Some t0 →
  (∀ t, t ∈ ts → shape t = [numel t] ∧ dtype t = dtype t0) →
  cat ts = Ok {| data := concat (data <$> ts);
                 shape := [length (concat (data <$> ts))];
                 dtype := dtype t0 |}.
Proof.
  intros Hhd Hflat.
  assert (∀ t, t ∈ ts → shape t = [numel t]) as Hshape by (intros t Ht; by apply Hflat).
  pose proof (flat_kept_sum ts Hshape) as Hsum.
  unfold cat. destruct ts as [|t0' ts]; [done|]. injection Hhd as ->.
  destruct (filter (fun t => shape t ≠ [0%nat]) (t0 :: ts)) as [|t kept] eqn:Hkept.
  - by rewrite <-Hsum.
  - assert (∀ t', t' ∈ t :: kept → t' ∈ t0 :: ts) as Hsub.
    { intros t'. rewrite <-Hkept. by intros [_ ?]%list_elem_of_filter. }
    pose proof (Hflat t (Hsub t ltac:(constructor))) as [Hst Hdt].
    rewrite Hst. rewrite bool_decide_eq_true_2.
    + by rewrite Hsum, Hdt.
    + apply Forall_forall. intros t' Ht'. by rewrite (Hshape t' (Hsub t' Ht')).
Qed.

Lemma narrow_flat (d : list T) (dt : torch_dtype) (n len : nat) :
  narrow {| data := d; shape := [n]; dtype := dt |} 0 len =
    if decide (len ≤ n)%nat
    then Ok {| data := take len d; shape := [len]; dtype := dt |}
    else Raise RuntimeError.
Proof.
  unfold narrow. cbn. case_decide; [|done].
  by rewrite Nat.mul_1_r.
Qed.

Lemma narrow_data t (len : nat) nr :
  narrow t 0 len = Ok nr →
  ∃ cnt : nat, data nr = take cnt (data t) ∧ dtype nr = dtype t.
Proof.
  unfold narrow. destruct (shape t) as [|n tail]; [done|].
  case_decide; [|done]. intros [= <-]. cbn. eauto.
Qed.

Lemma view_ok t (s : list nat) :
  shape_numel s = numel t →
  view t s = Ok {| data := data t; shape := s; dtype := dtype t |}.
Proof. intros H. unfold view. by rewrite decide_True. Qed.

Lemma take_of_length {A} (X : list A) (m : nat) :
  take m X = take (length (take m X)) X.
Proof.
  rewrite length_take. destruct (decide (m ≤ length X)%nat).
  - by rewrite Nat.min_l.
  - rewrite Nat.min_r by lia. by rewrite !take_ge by lia.
Qed.

(** What [gather] hands to [cat] when the collective succeeds. *)
Lemma gather_collected (peers : nat → tensor T) self :
  (local_rank self < world_size self)%nat →
  Forall (fun buf => dtype buf = dtype (_param_payload self)) (buffers zero self) →
  (∀ i, (i < world_size self)%nat → numel (peers i) = numel (_param_payload self)) →
  ∃ bufs,
    all_gather peers (local_rank self) (buffers zero self) (_param_payload self) = Ok bufs
    ∧ data <$> bufs =
        (fun i => data (if decide (i = local_rank self) then _param_payload self else peers i))
        <$> seq 0 (world_size self)
    ∧ (∃ t0, head bufs = Some t0 ∧ dtype t0 = dtype (_param_payload self))
    ∧ (shape (_param_payload self) = [numel (_param_payload self)] →
       ∀ t, t ∈ bufs → shape t = [numel t] ∧ dtype t = dtype (_param_payload self)).
Proof.
  intros Hk Hdt Hpeers. eexists. split.
  { apply all_gather_ok; [done|].
    intros i buf Hi. apply buffers_lookup in Hi as (Hlt & -> & _).
    case_decide; [done|]. by apply Hpeers. }
  split; [|split].
  - unfold buffers. rewrite imap_fmap, fmap_imap.
    apply list_eq. intros i. rewrite list_lookup_imap, list_lookup_fmap.
    destruct (seq 0 (world_size self) !! i) as [j|] eqn:Hj; [|done].
    apply lookup_seq in Hj as [-> _]. done.
  - destruct (buffers zero self) as [|buf bufs] eqn:Hb.
    { apply (f_equal length) in Hb. unfold buffers in Hb.
      rewrite length_fmap, length_seq in Hb. cbn in Hb. lia. }
    eexists. split; [done|]. cbn. by apply Forall_cons_1 in Hdt as [? _].
  - intros Hflat t Ht. apply elem_of_lookup_imap_1 in Ht as (i & buf & -> & Hi).
    pose proof (buffers_lookup _ _ _ Hi) as (Hlt & Hn & _).
    rewrite Forall_forall in Hdt. rewrite (Hdt buf) by (by eapply list_elem_of_lookup_2).
    split; [|done]. cbn. fold (numel (if decide (i = local_rank self)
                                      then _param_payload self else peers i)).
    assert (numel (if decide (i = local_rank self)
                   then _param_payload self else peers i)
            = numel (_param_payload self)) as ->.
    { case_decide; [done|]. by apply Hpeers. }
    unfold buffers in Hi. rewrite list_lookup_fmap in Hi.
    destruct (seq 0 (world_size self) !! i) as [j|] eqn:Hj; [|done].
    injection Hi as <-. by case_decide.
Qed.

(** [gather] on a sharded tensor with a one-dimensional payload, step by
    step, once the buffers are of one dtype and every rank contributes a
    buffer of the size of the local payload. *)
Lemma gather_sharded (peers : nat → tensor T) self :
  is_shared self = true →
  (local_rank self < world_size self)%nat →
  dtype (_param_payload self) = float32 ∨ world_size self = 1%nat →
  shape (_param_payload self) = [numel (_param_payload self)] →
  (∀ i, (i < world_size self)%nat → numel (peers i) = numel (_param_payload self)) →
  gather zero peers self =
    (let collected :=
       concat ((fun i => data (if decide (i = local_rank self)
                               then _param_payload self else peers i))
               <$> seq 0 (world_size self)) in
     narrowed ← narrow {| data := collected;
                          shape := [length collected];
                          dtype := dtype (_param_payload self) |}
                       0 (_origin_numel self);
     p ← view narrowed (_origin_shape self);
     Ok (set_payload self p false))%py.
Proof.
  intros Hs Hk Hd Hflat Hpeers. unfold gather. rewrite Hs. cbn [negb].
  cbn zeta. rewrite buffers_own by done. cbn [rbind].
  destruct (gather_collected peers self Hk (buffers_dtype self Hk Hd) Hpeers)
    as (bufs & -> & Hdata & (t0 & Hhd & Hdt0) & Hall).
  cbn [rbind]. erewrite cat_flat; [|exact Hhd|].
  - cbn [rbind]. by rewrite Hdata, Hdt0.
  - intros t Ht. rewrite Hdt0. by apply Hall.
Qed.

(** The collected elements are [payload_numel * world_size] many. *)
Lemma length_concat_uniform (ls : list (list T)) (n : nat) :
  (∀ x, x ∈ ls → length x = n) → length (concat ls) = (length ls * n)%nat.
Proof.
  induction ls as [|x ls IH]; intros Hall; [done|].
  cbn. rewrite length_app, IH, (Hall x) by (intros; apply Hall || idtac; by constructor).
  done.
Qed.

Lemma collected_length (peers : nat → tensor T) self :
  (∀ i, (i < world_size self)%nat → numel (peers i) = numel (_param_payload self)) →
  length (concat ((fun i => data (if decide (i = local_rank self)
                                  then _param_payload self else peers i))
                  <$> seq 0 (world_size self)))
  = (numel (_param_payload self) * world_size self)%nat.
Proof.
  intros Hpeers.
  rewrite (length_concat_uniform _ (numel (_param_payload self))).
  - rewrite length_fmap, length_seq. lia.
  - intros x (i & -> & Hi%elem_of_seq)%list_elem_of_fmap.
    case_decide; [done|]. apply Hpeers. lia.
Qed.

Lemma shard_on_rank self (i : nat) :
  is_shared self = false →
  _param_payload (shard zero (on_rank i self)) =
    (get_shard zero (_param_payload self) i (world_size self)).1.
Proof. intros Hw. by rewrite shard_whole. Qed.

(** Every rank's shard in rank order, concatenated: the padded payload. *)
Lemma shards_concat t (g : nat) :
  (1 ≤ g)%nat →
  concat ((fun i => data (get_shard zero t i g).1) <$> seq 0 g) = padded zero (data t) g.
Proof.
  intros Hg.
  rewrite <-(take_ge (padded zero (data t) g) (g * ceil_div (numel t) g)).
  2:{ rewrite length_padded by done. unfold numel. lia. }
  rewrite <-concat_chunks. f_equal.
  apply list_fmap_ext. intros j i Hi. apply lookup_seq in Hi as [-> Hlt].
  by apply get_shard_data.
Qed.

(** The round trip, where the code makes it: for a [float32] payload, or in
    a group of one rank.  A WHOLE tensor in a group whose ranks each hold the
    shard that [shard] produces for them: [shard] followed by [gather] gives
    back the object it started from. *)
Lemma shard_gather_roundtrip_float32 self :
  whole self →
  (local_rank self < world_size self)%nat →
  dtype (_param_payload self) = float32 ∨ world_size self = 1%nat →
  gather zero (fun i => _param_payload (shard zero (on_rank i self))) (shard zero self)
    = Ok self.
Proof.
  intros (Hw & Hn & Hsh & Hprod) Hk Hd.
  assert (1 ≤ world_size self)%nat as Hg by lia.
  rewrite gather_sharded; rewrite ?shard_whole by done; try done.
  2:{ cbn [_param_payload set_payload]. by rewrite get_shard_shape, get_shard_numel. }
  2:{ intros i _. cbn [_param_payload set_payload on_rank is_shared local_rank world_size].
      by rewrite shard_on_rank, !get_shard_numel. }
  cbn [_param_payload set_payload is_shared local_rank world_size _origin_numel _origin_shape].
  set (t := _param_payload self) in *. set (G := world_size self) in *.
  assert (concat ((fun i : nat =>
            data (if decide (i = local_rank self)
                  then (get_shard zero t (local_rank self) G).1
                  else _param_payload (shard zero (on_rank i self))))
            <$> seq 0 G) = padded zero (data t) G) as Hcat.
  { rewrite <-shards_concat by done.
    f_equal. apply list_fmap_ext. intros j i _. cbn.
    case_decide; [by subst|]. by rewrite shard_on_rank. }
  cbn zeta. rewrite Hcat, narrow_flat, length_padded by done.
  pose proof (ceil_div_covers (length (data t)) G Hg) as Hcov.
  unfold numel in Hn. rewrite decide_True by lia. cbn [rbind].
  unfold padded. rewrite take_app_length' by done.
  rewrite view_ok by (unfold numel; cbn [data]; lia).
  cbn [rbind data dtype]. f_equal. destruct self as [? ? [? ? ?] ? ? ? ?]. cbn in *. by subst.
Qed.

(** [gather] in a group of two ranks or more, on a payload that is not
    [float32]: the buffers for the other ranks are [float32], the list handed
    to [all_gather] mixes two dtypes, and the call raises [ValueError]
    whatever the peers hold. *)
Lemma gather_rejects_other_dtypes (peers : nat → tensor T) self :
  is_shared self = true →
  (local_rank self < world_size self)%nat →
  (2 ≤ world_size self)%nat →
  dtype (_param_payload self) ≠ float32 →
  gather zero peers self = Raise ValueError.
Proof.
  intros Hs Hk Hg Hd. unfold gather. rewrite Hs. cbn [negb]. cbn zeta.
  rewrite buffers_own by done. cbn [rbind].
  rewrite all_gather_mixed_dtype; [done|]. by apply buffers_mixed_dtype.
Qed.

(** C8, as the code has it.  [gather] never compares the collected length
    with [chunk * world_size]; the one test on lengths is the one inside
    [torch.narrow].  On a sharded tensor as [shard] leaves it (a
    one-dimensional payload, [local_rank] below [world_size], an original
    shape that describes [_origin_numel] elements), whose payload is
    [float32] or whose group has one rank, and whose peers contribute buffers
    of the size of the local payload: [gather] fails if and only if the
    collected [payload_numel * world_size] elements are fewer than
    [_origin_numel], and the failure is the [RuntimeError] of [narrow]. *)
Theorem gather_fails_iff_truncation_out_of_bounds (peers : nat → tensor T) self :
  is_shared self = true →
  (local_rank self < world_size self)%nat →
  shape (_param_payload self) = [numel (_param_payload self)] →
  shape_numel (_origin_shape self) = _origin_numel self →
  dtype (_param_payload self) = float32 ∨ world_size self = 1%nat →
  (∀ i, (i < world_size self)%nat → numel (peers i) = numel (_param_payload self)) →
  (failed (gather zero peers self)
     ↔ (numel (_param_payload self) * world_size self < _origin_numel self)%nat)
  ∧ (failed (gather zero peers self) → gather zero peers self = Raise RuntimeError).
Proof.
  intros Hs Hk Hflat Hprod Hd Hpeers.
  rewrite gather_sharded by done. cbn zeta.
  rewrite narrow_flat, collected_length by done.
  case_decide as Hle; cbn [rbind].
  - rewrite view_ok.
    2:{ unfold numel at 1. cbn [data]. rewrite length_take, collected_length by done. lia. }
    cbn. split; [|done]. split; [done|lia].
  - cbn. split; [|done]. split; [lia|done].
Qed.

End shard_properties.

(** *** Sharding on concrete tensors *)

(** The scenario of the design document: ten elements over four ranks give
    chunks of three; the last rank holds one element and two zeros. *)
Example shard_ten_by_four :
  _param_payload (shard 0 ten_by_four)
    = {| data := [10; 0; 0]; shape := [3%nat]; dtype := float32 |}.
Proof. reflexivity. Qed.

Lemma shard_payload_is_padded_slice_witness :
  data (_param_payload (shard 0 ten_by_four)) =
    take 3 (drop (3 * 3) (padded 0 [1; 2; 3; 4; 5; 6; 7; 8; 9; 10] 4))
  ∧ length (padded 0 [1; 2; 3; 4; 5; 6; 7; 8; 9; 10] 4) = 12%nat
  ∧ numel (_param_payload (shard 0 ten_by_four)) = 3%nat
  ∧ is_shared (shard 0 ten_by_four) = true.
Proof.
  apply (shard_payload_is_padded_slice 0 ten_by_four).
  - repeat split; reflexivity.
  - vm_compute. lia.
Defined.

(** The round trip of a [float32] tensor of ten elements over four ranks. *)
Example roundtrip_ten_by_four :
  gather 0 (fun i => _param_payload (shard 0 (on_rank i ten_by_four))) (shard 0 ten_by_four)
    = Ok ten_by_four.
Proof.
  apply (shard_gather_roundtrip_float32 0 ten_by_four).
  - repeat split; reflexivity.
  - vm_compute. lia.
  - by left.
Qed.

(** Fewer elements than ranks: three elements over four ranks. *)
Example roundtrip_fewer_elements_than_ranks :
  let self := ShardParam_init
                {| p_data := {| data := [7; 8; 9]; shape := [3%nat]; dtype := float32 |};
                   p_grad := {| data := [0; 0; 0]; shape := [3%nat]; dtype := float32 |} |}
                DATA 4 1 in
  numel (_param_payload (shard 0 self)) = 1%nat
  ∧ gather 0 (fun i => _param_payload (shard 0 (on_rank i self))) (shard 0 self) = Ok self.
Proof. split; reflexivity. Qed.

(** C1, at the failing input.  A WHOLE [int64] tensor of ten elements and
    shape [2 x 5], on the last rank of a group of four whose ranks each hold
    the shard that [shard] produces for them.  [shard] leaves the last chunk,
    [[10; 0; 0]], in the sharded state.  [gather] then puts it next to three
    [float32] buffers from [torch.zeros], [all_gather] raises [ValueError] on
    the mixed dtypes, and no payload is restored: the round trip that holds
    for a [float32] payload does not take place. *)
Theorem roundtrip_fails_on_int64 :
  whole ten_by_four_int64
  ∧ (1 ≤ _origin_numel ten_by_four_int64)%nat
  ∧ (local_rank ten_by_four_int64 < world_size ten_by_four_int64)%nat
  ∧ is_shared (shard 0 ten_by_four_int64) = true
  ∧ _param_payload (shard 0 ten_by_four_int64)
    = {| data := [10; 0; 0]; shape := [3%nat]; dtype := int64 |}
  ∧ gather 0 (fun i => _param_payload (shard 0 (on_rank i ten_by_four_int64)))
      (shard 0 ten_by_four_int64)
    = Raise ValueError.
Proof.
  split; [repeat split; reflexivity|].
  split; [vm_compute; lia|]. split; [vm_compute; lia|].
  repeat split; reflexivity.
Qed.

(** The same in general, on the tensor of the failing input. *)
Example gather_rejects_int64 :
  ∀ peers, gather 0 peers (shard 0 ten_by_four_int64) = Raise ValueError.
Proof.
  intros peers. apply gather_rejects_other_dtypes.
  - reflexivity.
  - vm_compute. lia.
  - vm_compute. lia.
  - discriminate.
Qed.

(** C8, counterexample.  Ten original elements in a group of four call for
    [chunk * world_size = 12] collected elements.  With five elements per
    rank [gather] collects twenty, and does not fail: it keeps the first
    ten. *)
Lemma gather_accepts_mismatched_length :
  (numel (_param_payload five_per_rank) * world_size five_per_rank)%nat
    ≠ (ceil_div (_origin_numel five_per_rank) (world_size five_per_rank)
       * world_size five_per_rank)%nat
  ∧ ¬ failed (gather 0 five_per_rank_peers five_per_rank)
  ∧ gather 0 five_per_rank_peers five_per_rank =
      Ok {| world_size := 4;
            local_rank := 0;
            _param_payload := {| data := [1; 2; 3; 4; 5; 1; 2; 3; 4; 5];
                                 shape := [10%nat];
                                 dtype := float32 |};
            _payload_numel := None;
            _origin_shape := [10%nat];
            _origin_numel := 10;
            is_shared := false |}.
Proof.
  split; [vm_compute; lia|]. split; [|reflexivity].
  intros Hfail. exact Hfail.
Qed.

Lemma gather_fails_iff_truncation_out_of_bounds_witness :
  (failed (gather 0 five_per_rank_peers five_per_rank)
     ↔ (numel (_param_payload five_per_rank) * world_size five_per_rank
        < _origin_numel five_per_rank)%nat)
  ∧ (failed (gather 0 five_per_rank_peers five_per_rank) →
     gather 0 five_per_rank_peers five_per_rank = Raise RuntimeError).
Proof.
  apply (gather_fails_iff_truncation_out_of_bounds 0 five_per_rank_peers five_per_rank).
  - reflexivity.
  - vm_compute. lia.
  - reflexivity.
  - reflexivity.
  - by left.
  - intros i _. reflexivity.
Defined.

(** The failing side of the same test: two elements per rank in a group of
    four cannot cover ten original elements. *)
Example gather_truncation_out_of_bounds :
  gather 0 (fun _ => {| data := [0; 0]; shape := [2%nat]; dtype := float32 |})
    {| world_size := 4; local_rank := 0;
       _param_payload := {| data := [1; 2]; shape := [2%nat]; dtype := float32 |};
       _payload_numel := None; _origin_shape := [10%nat]; _origin_numel := 10;
       is_shared := true |}
  = Raise RuntimeError.
Proof. reflexivity. Qed.

(** A payload that is not flattened, in a group of four: the buffers from
    [torch.zeros] have one dimension, the payload has two, and [torch.cat]
    raises. *)
Example gather_unflattened_payload :
  gather 0 (fun _ => {| data := [0; 0; 0; 0]; shape := [4%nat]; dtype := float32 |})
    {| world_size := 4; local_rank := 0;
       _param_payload := {| data := [1; 2; 3; 4]; shape := [2; 2]%nat; dtype := float32 |};
       _payload_numel := None; _origin_shape := [10%nat]; _origin_numel := 10;
       is_shared := true |}
  = Raise RuntimeError.
Proof. reflexivity. Qed.

(** ** The group cache *)

Lemma get_hit (l : list Z) (b : string) (σ : process) (h : GroupHandle) :
  dict (PYTORCHPGDICT_ σ) !! (b, l) = Some h → get (Some l) b σ = (Ok h, σ).
Proof. intros Hh. unfold get. by rewrite Hh. Qed.

Lemma get_miss (l : list Z) (b : string) (σ : process) :
  dict (PYTORCHPGDICT_ σ) !! (b, l) = None →
  get (Some l) b σ =
    (Ok (length (new_group_calls σ)),
     {| PYTORCHPGDICT_ :=
          {| dict := <[(b, l) := length (new_group_calls σ)]> (dict (PYTORCHPGDICT_ σ)) |};
        new_group_calls := new_group_calls σ ++ [(l, b)] |}).
Proof. intros Hh. unfold get. by rewrite Hh. Qed.

(** [get] on a list returns, its [new_group] call (if it makes one) being
    one that [torch] accepts, and afterwards the key is cached with the
    handle it returned. *)
Lemma get_cached (l : list Z) (b : string) (σ : process) :
  ∃ h, get (Some l) b σ = (Ok h, (get (Some l) b σ).2)
       ∧ dict (PYTORCHPGDICT_ (get (Some l) b σ).2) !! (b, l) = Some h.
Proof.
  destruct (dict (PYTORCHPGDICT_ σ) !! (b, l)) as [h|] eqn:Hh.
  - exists h. by rewrite (get_hit _ _ _ _ Hh).
  - eexists. rewrite (get_miss _ _ _ Hh). cbn. split; [done|]. apply lookup_insert_eq.
Qed.

Lemma cache_wf_fresh : cache_wf fresh_process.
Proof. split; intros *; cbn; by rewrite lookup_empty. Qed.

Lemma get_wf (l : list Z) (b : string) (σ : process) :
  cache_wf σ → cache_wf (get (Some l) b σ).2.
Proof.
  intros [Hlt Hinj].
  destruct (dict (PYTORCHPGDICT_ σ) !! (b, l)) as [h|] eqn:Hh.
  - by rewrite (get_hit _ _ _ _ Hh).
  - rewrite (get_miss _ _ _ Hh). split; cbn.
    + intros k h. rewrite lookup_insert, length_app. cbn.
      case_decide; [intros [= <-]; lia|]. intros Hk%Hlt. lia.
    + intros k k' h. rewrite !lookup_insert.
      repeat case_decide; subst; try done.
      * intros [= <-] Hk'%Hlt. lia.
      * intros Hk%Hlt [= <-]. lia.
      * apply Hinj.
Qed.

Lemma get_mono (l : list Z) (b : string) (σ : process) (k : string * list Z) (h : GroupHandle) :
  dict (PYTORCHPGDICT_ σ) !! k = Some h →
  dict (PYTORCHPGDICT_ (get (Some l) b σ).2) !! k = Some h.
Proof.
  intros Hk.
  destruct (dict (PYTORCHPGDICT_ σ) !! (b, l)) as [h'|] eqn:Hh.
  - by rewrite (get_hit _ _ _ _ Hh).
  - rewrite (get_miss _ _ _ Hh). cbn. rewrite lookup_insert_ne; [done|congruence].
Qed.

Lemma get_state_cases (rl : option (list Z)) (b : string) (σ : process) :
  (get rl b σ).2 = σ
  ∨ ∃ l, rl = Some l
         ∧ dict (PYTORCHPGDICT_ σ) !! (b, l) = None
         ∧ (get rl b σ).2 =
             {| PYTORCHPGDICT_ :=
                  {| dict := <[(b, l) := length (new_group_calls σ)]>
                               (dict (PYTORCHPGDICT_ σ)) |};
                new_group_calls := new_group_calls σ ++ [(l, b)] |}.
Proof.
  destruct rl as [l|]; [|by left].
  destruct (dict (PYTORCHPGDICT_ σ) !! (b, l)) as [h|] eqn:Hh.
  - left. by rewrite (get_hit _ _ _ _ Hh).
  - right. exists l. by rewrite (get_miss _ _ _ Hh).
Qed.

Lemma cache_consistent_fresh : cache_consistent fresh_process.
Proof.
  split; [apply cache_wf_fresh|]. intros b l h. cbn. by rewrite lookup_empty.
Qed.

Lemma get_consistent (rl : option (list Z)) (b : string) (σ : process) :
  cache_consistent σ → cache_consistent (get rl b σ).2.
Proof.
  intros (Hwf & Hcall).
  destruct (get_state_cases rl b σ) as [->|(l & -> & Hmiss & Hst)]; [done|].
  split; [by apply get_wf|]. rewrite Hst. cbn.
  intros b' l' h. rewrite lookup_insert. case_decide as Hk.
  - injection Hk as -> ->. intros [= <-].
    by rewrite lookup_app_r, Nat.sub_diag.
  - intros Hh. rewrite lookup_app_l; [by apply Hcall|].
    destruct Hwf as [Hlt _]. by eapply Hlt.
Qed.

(** The objects behind two cached handles: they are one object exactly when
    the two keys are one key, or when the process belongs to neither rank
    list and both are [NON_GROUP_MEMBER]. *)
Lemma cached_objects (r : Z) (σ : process) (b b' : string) (l l' : list Z)
    (h h' : GroupHandle) :
  cache_consistent σ →
  dict (PYTORCHPGDICT_ σ) !! (b, l) = Some h →
  dict (PYTORCHPGDICT_ σ) !! (b', l') = Some h' →
  ∃ o o',
    returned_object r σ h = Some o
    ∧ returned_object r σ h' = Some o'
    ∧ (o = o' ↔ (b = b' ∧ l = l') ∨ ((r ∉ l) ∧ (r ∉ l'))).
Proof.
  intros ([_ Hinj] & Hcall) Hh Hh'.
  unfold returned_object. rewrite (Hcall _ _ _ Hh), (Hcall _ _ _ Hh').
  do 2 eexists. split; [done|]. split; [done|].
  do 2 case_bool_decide; split.
  - intros [= ->]. left. by injection (Hinj _ _ _ Hh Hh').
  - intros [[-> ->]|[? _]]; [|done]. rewrite Hh in Hh'. by injection Hh' as ->.
  - done.
  - intros [[-> ->]|[? _]]; done.
  - done.
  - intros [[-> ->]|[_ ?]]; done.
  - auto.
  - done.
Qed.

(** C2, as the code has it.  The cache key is the backend together with the
    rank list in the order given; nothing sorts it.  Take two consecutive
    calls of [get] that return, in a process of rank [r] whose cache only
    [get] has filled.  With the same backend and the same rank list in the
    same order the second call returns what the first returned and leaves
    the process as it was, without a call to [new_group].  With any other
    pair of keys the two values come from two calls of [new_group], and they
    are one object only on a process that belongs to neither rank list,
    where both are [NON_GROUP_MEMBER]. *)
Theorem get_same_object_iff_same_key_or_outside (r : Z) (σ σ1 σ2 : process)
    (b1 b2 : string) (l1 l2 : list Z) (h1 h2 : GroupHandle) :
  cache_consistent σ →
  get (Some l1) b1 σ = (Ok h1, σ1) →
  get (Some l2) b2 σ1 = (Ok h2, σ2) →
  ∃ o1 o2,
    returned_object r σ2 h1 = Some o1
    ∧ returned_object r σ2 h2 = Some o2
    ∧ (o1 = o2 ↔ (b1 = b2 ∧ l1 = l2) ∨ ((r ∉ l1) ∧ (r ∉ l2)))
    ∧ (b1 = b2 ∧ l1 = l2 → h2 = h1 ∧ σ2 = σ1).
Proof.
  intros Hcons E1 E2.
  destruct (get_cached l1 b1 σ) as (h & E & Hc1). rewrite E1 in E, Hc1.
  cbn [snd] in E, Hc1. injection E as <-.
  assert (cache_consistent σ1) as Hcons1.
  { replace σ1 with (get (Some l1) b1 σ).2 by by rewrite E1. by apply get_consistent. }
  destruct (get_cached l2 b2 σ1) as (h & E & Hc2). rewrite E2 in E, Hc2.
  cbn [snd] in E, Hc2. injection E as <-.
  assert (cache_consistent σ2) as Hcons2.
  { replace σ2 with (get (Some l2) b2 σ1).2 by by rewrite E2. by apply get_consistent. }
  pose proof (get_mono l2 b2 σ1 _ _ Hc1) as Hc1'. rewrite E2 in Hc1'. cbn [snd] in Hc1'.
  destruct (cached_objects r σ2 b1 b2 l1 l2 h1 h2 Hcons2 Hc1' Hc2) as (o1 & o2 & Ho1 & Ho2 & Hiff).
  exists o1, o2. split; [done|]. split; [done|]. split; [done|].
  intros [<- <-]. rewrite (get_hit _ _ _ _ Hc1) in E2. by injection E2 as <- <-.
Qed.

Lemma get_same_object_iff_same_key_or_outside_witness :
  ∃ o1 o2,
    returned_object 0 (get (Some [0; 1]) "gloo" (get (Some [0; 1]) "nccl" fresh_process).2).2
      0%nat = Some o1
    ∧ returned_object 0 (get (Some [0; 1]) "gloo" (get (Some [0; 1]) "nccl" fresh_process).2).2
        1%nat = Some o2
    ∧ (o1 = o2 ↔ ("nccl" = "gloo" ∧ [0; 1] = [0; 1]) ∨ ((0 ∉ [0; 1]) ∧ (0 ∉ [0; 1])))
    ∧ ("nccl" = "gloo" ∧ [0; 1] = [0; 1] →
       1%nat = 0%nat
       ∧ (get (Some [0; 1]) "gloo" (get (Some [0; 1]) "nccl" fresh_process).2).2
         = (get (Some [0; 1]) "nccl" fresh_process).2).
Proof.
  apply (get_same_object_iff_same_key_or_outside 0 fresh_process
           (get (Some [0; 1]) "nccl" fresh_process).2
           (get (Some [0; 1]) "gloo" (get (Some [0; 1]) "nccl" fresh_process).2).2
           "nccl" "gloo" [0; 1] [0; 1] 0%nat 1%nat).
  - apply cache_consistent_fresh.
  - vm_compute. reflexivity.
  - vm_compute. reflexivity.
Defined.

(** C2, counterexample.  The rank lists [[0; 1]] and [[1; 0]] hold the same
    ranks; in a fresh process [get] calls [new_group] for each, and on the
    process of rank [0], which belongs to both, the two calls return two
    different group objects. *)
Lemma get_distinguishes_rank_order :
  [0; 1] ≡ₚ [1; 0]
  ∧ (get (Some [0; 1]) "nccl" fresh_process).1
    ≠ (get (Some [1; 0]) "nccl" (get (Some [0; 1]) "nccl" fresh_process).2).1
  ∧ (get (Some [0; 1]) "nccl" fresh_process).1 = Ok 0%nat
  ∧ (get (Some [1; 0]) "nccl" (get (Some [0; 1]) "nccl" fresh_process).2).1 = Ok 1%nat
  ∧ new_group_calls (get (Some [1; 0]) "nccl" (get (Some [0; 1]) "nccl" fresh_process).2).2
    = [([0; 1], "nccl"); ([1; 0], "nccl")]
  ∧ returned_object 0
      (get (Some [1; 0]) "nccl" (get (Some [0; 1]) "nccl" fresh_process).2).2 0%nat
    = Some (group_of_call 0)
  ∧ returned_object 0
      (get (Some [1; 0]) "nccl" (get (Some [0; 1]) "nccl" fresh_process).2).2 1%nat
    = Some (group_of_call 1)
  ∧ group_of_call 0 ≠ group_of_call 1.
Proof.
  split; [apply Permutation_swap|].
  split; [vm_compute; discriminate|].
  repeat split; try (vm_compute; reflexivity). discriminate.
Qed.

(** On a process outside the rank list the backend makes no difference to
    the object: rank [2] gets [NON_GROUP_MEMBER] for the ranks [[0; 1]]
    under ["nccl"] and under ["gloo"], from two calls of [new_group]. *)
Example get_outside_the_ranks :
  let σ2 := (get (Some [0; 1]) "gloo" (get (Some [0; 1]) "nccl" fresh_process).2).2 in
  new_group_calls σ2 = [([0; 1], "nccl"); ([0; 1], "gloo")]
  ∧ returned_object 2 σ2 0%nat = Some NON_GROUP_MEMBER
  ∧ returned_object 2 σ2 1%nat = Some NON_GROUP_MEMBER.
Proof. repeat split; vm_compute; reflexivity. Qed.

(** The same ranks under the two backends lead to two calls. *)
Example get_distinguishes_backend :
  (get (Some [0; 1]) "nccl" fresh_process).1 = Ok 0%nat
  ∧ (get (Some [0; 1]) "gloo" (get (Some [0; 1]) "nccl" fresh_process).2).1 = Ok 1%nat.
Proof. split; vm_compute; reflexivity. Qed.

(** ** The grid *)

Lemma getitem_Z {A} (l : list A) (k : Z) (x : A) :
  0 ≤ k → l !! Z.to_nat k = Some x → getitem l k = Ok x.
Proof.
  intros Hk Hx. rewrite <-(Z2Nat.id k) by done. by apply getitem_nat.
Qed.

Lemma comprehension_omap {A B} (f : A → result B) (h : A → option B) (xs : list A) :
  (∀ x, x ∈ xs → ∃ y, f x = Ok y ∧ h x = Some y) →
  comprehension f xs = Ok (omap h xs).
Proof.
  induction xs as [|x xs IH]; intros Hf; [done|].
  destruct (Hf x) as (y & Hfx & Hhx); [by constructor|].
  cbn. rewrite Hfx, Hhx, IH; [done|].
  intros z Hz. apply Hf. by constructor.
Qed.

(** Row [i] as a selection of positions, the way the comprehension of
    [__init__] builds it. *)
Lemma grid_row_positions (l : list Z) (tp i : Z) :
  0 ≤ i → 0 ≤ tp → i * tp + tp ≤ Z.of_nat (length l) →
  grid_row l tp i = omap (fun j => l !! Z.to_nat (i * tp + j)) (range tp).
Proof.
  intros Hi Htp Hlen. unfold grid_row, range.
  assert (∀ n : nat, (n ≤ Z.to_nat tp)%nat →
            take n (drop (Z.to_nat (i * tp)) l) =
              omap (fun j => l !! Z.to_nat (i * tp + j)) (seqZ 0 (Z.of_nat n))) as Hn.
  2:{ rewrite (Hn (Z.to_nat tp)) by lia. by rewrite Z2Nat.id. }
  induction n as [|n IH]; intros Hn; [done|].
  rewrite seqZ_S, omap_app, <-IH by lia. cbn.
  replace (Z.to_nat (i * tp + (0 + Z.of_nat n))) with (Z.to_nat (i * tp) + n)%nat by lia.
  destruct (lookup_lt_is_Some_2 l (Z.to_nat (i * tp) + n)) as [x Hx]; [lia|].
  rewrite Hx. cbn.
  rewrite (take_S_r _ _ x); [done|]. by rewrite lookup_drop.
Qed.

Lemma i_tp_list_ok (l : list Z) (tp i : Z) :
  0 ≤ i → 0 ≤ tp → i * tp + tp ≤ Z.of_nat (length l) →
  i_tp_list l tp i = Ok (grid_row l tp i).
Proof.
  intros Hi Htp Hlen. rewrite grid_row_positions by done.
  apply comprehension_omap. intros j Hj%elem_of_seqZ.
  destruct (lookup_lt_is_Some_2 l (Z.to_nat (i * tp + j))) as [x Hx]; [nia|].
  exists x. split; [|done]. apply getitem_Z; [nia|done].
Qed.

Lemma j_dp_list_ok (l : list Z) (tp dp j : Z) :
  0 ≤ j < tp → dp * tp ≤ Z.of_nat (length l) →
  j_dp_list l tp dp j = Ok (grid_col l tp dp j).
Proof.
  intros Hj Hlen. apply comprehension_omap. intros i Hi%elem_of_seqZ.
  destruct (lookup_lt_is_Some_2 l (Z.to_nat (i * tp + j))) as [x Hx]; [nia|].
  exists x. split; [|done]. apply getitem_Z; [nia|done].
Qed.

Lemma elem_of_grid_row (l : list Z) (tp i x : Z) :
  0 ≤ i → 0 ≤ tp →
  x ∈ grid_row l tp i ↔
    ∃ p : nat, l !! p = Some x ∧ i * tp ≤ Z.of_nat p < i * tp + tp.
Proof.
  intros Hi Htp. unfold grid_row. rewrite elem_of_take. split.
  - intros (q & Hq & Hlt). rewrite lookup_drop in Hq.
    exists (Z.to_nat (i * tp) + q)%nat. split; [done|]. nia.
  - intros (p & Hp & Hrange). exists (p - Z.to_nat (i * tp))%nat.
    rewrite lookup_drop. split; [|nia].
    by replace (Z.to_nat (i * tp) + (p - Z.to_nat (i * tp)))%nat with p by nia.
Qed.

Lemma elem_of_grid_col (l : list Z) (tp dp j x : Z) :
  x ∈ grid_col l tp dp j ↔
    ∃ i : Z, 0 ≤ i < dp ∧ l !! Z.to_nat (i * tp + j) = Some x.
Proof.
  unfold grid_col, range. rewrite list_elem_of_omap.
  setoid_rewrite elem_of_seqZ. split; intros (i & ? & ?); exists i; split; done || lia.
Qed.

Lemma grid_row_subseteq (l : list Z) (tp i : Z) : grid_row l tp i ⊆ l.
Proof.
  unfold grid_row. etrans; [apply subseteq_take|apply subseteq_drop].
Qed.

Lemma grid_col_subseteq (l : list Z) (tp dp j : Z) : grid_col l tp dp j ⊆ l.
Proof.
  intros x (i & _ & Hx)%elem_of_grid_col. by eapply list_elem_of_lookup_2.
Qed.

(** The rows in order, one after the other, are the rank list itself. *)
Lemma concat_grid_rows (l : list Z) (tp dp : Z) :
  0 ≤ tp → 0 ≤ dp → dp * tp = Z.of_nat (length l) →
  concat (grid_rows l tp dp) = l.
Proof.
  intros Htp Hdp Hlen. unfold grid_rows, range.
  assert (∀ n : nat, concat (grid_row l tp <$> seqZ 0 (Z.of_nat n)) =
                       take (n * Z.to_nat tp) l) as Hn.
  2:{ rewrite <-(Z2Nat.id dp) by done. rewrite Hn. apply take_ge. nia. }
  induction n as [|n IH]; [done|].
  rewrite seqZ_S, fmap_app, concat_app, IH. cbn.
  rewrite app_nil_r. unfold grid_row.
  replace (Z.to_nat ((0 + Z.of_nat n) * tp)) with (n * Z.to_nat tp)%nat by nia.
  rewrite take_take_drop. f_equal. lia.
Qed.

(** ** Construction *)

Lemma for__foldl {A S} (xs : list A) (body : A → S → M S)
    (f : S → A → S) (g : process → A → process) (s : S) (σ : process) :
  (∀ x s σ, x ∈ xs → body x s σ = (Ok (f s x), g σ x)) →
  for_ xs body s σ = (Ok (foldl f s xs), foldl g σ xs).
Proof.
  revert s σ. induction xs as [|x xs IH]; intros s σ Hbody; [done|].
  cbn. unfold mbind. rewrite Hbody by constructor.
  apply IH. intros y s' σ' Hy. apply Hbody. by constructor.
Qed.

(** One round of a registration loop: build the list, register it, keep it
    when it contains [rank]. *)
Lemma register_round (r : Z) (b : string) (built : result (list Z)) (l : list Z)
    (cur : option (list Z)) (σ : process) :
  built = Ok l →
  (l' ⇐ lift built; _ ⇐ get (Some l') b;
   mret (if bool_decide (r ∈ l') then Some l' else cur))%py σ
  = (Ok (if bool_decide (r ∈ l) then Some l else cur), (get (Some l) b σ).2).
Proof.
  intros ->. unfold mbind, lift, mret.
  destruct (get_cached l b σ) as (h & -> & _). done.
Qed.

Lemma init_rows_ok (r : Z) (l : list Z) (tp dp : Z) (σ : process) :
  dp ≤ 0 ∨ (0 ≤ tp ∧ dp * tp ≤ Z.of_nat (length l)) →
  init_rows r l tp dp σ =
    (Ok (pick r (grid_rows l tp dp)), register_all "nccl" (grid_rows l tp dp) σ).
Proof.
  intros Hin. unfold init_rows, pick, register_all, grid_rows.
  rewrite !foldl_fmap. apply for__foldl.
  intros i cur σ' Hi%elem_of_seqZ. apply register_round, i_tp_list_ok; nia.
Qed.

Lemma init_cols_ok (r : Z) (l : list Z) (tp dp : Z) (σ : process) :
  tp ≤ 0 ∨ dp * tp ≤ Z.of_nat (length l) →
  init_cols r l tp dp σ =
    (Ok (pick r (grid_cols l tp dp)), register_all "nccl" (grid_cols l tp dp) σ).
Proof.
  intros Hin. unfold init_cols, pick, register_all, grid_cols.
  rewrite !foldl_fmap. apply for__foldl.
  intros j cur σ' Hj%elem_of_seqZ. apply register_round, j_dp_list_ok; lia.
Qed.

Lemma register_all_app (b : string) (gs gs' : list (list Z)) (σ : process) :
  register_all b (gs ++ gs') σ = register_all b gs' (register_all b gs σ).
Proof. unfold register_all. apply foldl_app. Qed.

(** Whatever branch resolves the degrees, their product is the world
    size. *)
Lemma resolve_degrees_product (ws : Z) (tp_degree dp_degree : option Z) (dp tp : Z) :
  resolve_degrees ws tp_degree dp_degree = Ok (dp, tp) → dp * tp = ws.
Proof.
  unfold resolve_degrees, truthy.
  destruct dp_degree as [d|], tp_degree as [t|]; cbn;
    eqb_cases; intros [= <- <-]; try lia;
    match goal with
    | Hd : ?d ≠ 0 |- _ => pose proof (Z.div_mod ws d Hd); nia
    end.
Qed.

Lemma ProcessGroup_init_resolved (rt : dist) (rank : option Z) (ranks : option (list Z))
    (tp_degree dp_degree : option Z) (dp tp : Z) (σ : process) :
  is_initialized rt = true →
  resolve_degrees (Z.of_nat (length (world_ranks rt ranks))) tp_degree dp_degree = Ok (dp, tp) →
  ProcessGroup_init rt rank ranks tp_degree dp_degree σ =
    (Ok (constructed rt rank ranks dp tp),
     register_all "nccl"
       (grid_rows (world_ranks rt ranks) tp dp ++ grid_cols (world_ranks rt ranks) tp dp) σ).
Proof.
  intros Hinit Hres. pose proof (resolve_degrees_product _ _ _ _ _ Hres) as Hprod.
  unfold ProcessGroup_init. rewrite Hinit. cbn [negb].
  unfold mbind at 1. unfold lift at 1. rewrite Hres.
  unfold mbind at 1. rewrite init_rows_ok by nia.
  unfold mbind at 1. rewrite init_cols_ok by nia.
  by rewrite register_all_app.
Qed.

Lemma ProcessGroup_init_raise (rt : dist) (rank : option Z) (ranks : option (list Z))
    (tp_degree dp_degree : option Z) (e : exn) (σ : process) :
  is_initialized rt = true →
  resolve_degrees (Z.of_nat (length (world_ranks rt ranks))) tp_degree dp_degree = Raise e →
  ProcessGroup_init rt rank ranks tp_degree dp_degree σ = (Raise e, σ).
Proof.
  intros Hinit Hres. unfold ProcessGroup_init. rewrite Hinit. cbn [negb].
  unfold mbind at 1. unfold lift at 1. by rewrite Hres.
Qed.

Lemma ProcessGroup_init_uninitialized (rt : dist) (rank : option Z) (ranks : option (list Z))
    (tp_degree dp_degree : option Z) (σ : process) :
  is_initialized rt = false →
  ProcessGroup_init rt rank ranks tp_degree dp_degree σ =
    (Ok {| is_init := false; attrs := None |}, σ).
Proof. intros Hinit. unfold ProcessGroup_init. by rewrite Hinit. Qed.

(** A construction that returns an object with attributes went through an
    initialized runtime and resolved degrees. *)
Lemma ProcessGroup_init_inv (rt : dist) (rank : option Z) (ranks : option (list Z))
    (tp_degree dp_degree : option Z) (σ σ' : process) (pg : ProcessGroup) (a : attributes) :
  ProcessGroup_init rt rank ranks tp_degree dp_degree σ = (Ok pg, σ') →
  attrs pg = Some a →
  is_initialized rt = true
  ∧ resolve_degrees (Z.of_nat (length (world_ranks rt ranks))) tp_degree dp_degree
      = Ok (_dp_degree a, _tp_degree a)
  ∧ pg = constructed rt rank ranks (_dp_degree a) (_tp_degree a)
  ∧ _rank_list a = world_ranks rt ranks
  ∧ _rank a = self_rank rt rank
  ∧ _tp_rank_list a = pick (_rank a) (grid_rows (_rank_list a) (_tp_degree a) (_dp_degree a))
  ∧ _dp_rank_list a = pick (_rank a) (grid_cols (_rank_list a) (_tp_degree a) (_dp_degree a))
  ∧ _has_cpu_groups a = false.
Proof.
  intros Hrun Ha.
  destruct (is_initialized rt) eqn:Hinit.
  2:{ rewrite ProcessGroup_init_uninitialized in Hrun by done.
      injection Hrun as <- _. done. }
  destruct (resolve_degrees (Z.of_nat (length (world_ranks rt ranks))) tp_degree dp_degree)
    as [[dp tp]|e] eqn:Hres.
  2:{ by rewrite (ProcessGroup_init_raise _ _ _ _ _ e) in Hrun. }
  rewrite (ProcessGroup_init_resolved _ _ _ _ _ dp tp) in Hrun by done.
  injection Hrun as <- _. cbn in Ha. injection Ha as <-. done.
Qed.

Lemma pick_snoc (r : Z) (gs : list (list Z)) (g : list Z) :
  pick r (gs ++ [g]) = if bool_decide (r ∈ g) then Some g else pick r gs.
Proof. unfold pick. by rewrite foldl_snoc. Qed.

Lemma pick_Some (r : Z) (gs : list (list Z)) (g : list Z) :
  pick r gs = Some g → g ∈ gs ∧ r ∈ g.
Proof.
  induction gs as [|g' gs IH] using rev_ind; [done|].
  rewrite pick_snoc, elem_of_app, list_elem_of_singleton. case_bool_decide.
  - intros [= <-]. auto.
  - intros []%IH. auto.
Qed.

Lemma pick_None (r : Z) (gs : list (list Z)) :
  pick r gs = None ↔ ∀ g, g ∈ gs → r ∉ g.
Proof.
  induction gs as [|g' gs IH] using rev_ind.
  - split; [|done]. intros _ g Hg. by apply elem_of_nil in Hg.
  - rewrite pick_snoc. setoid_rewrite elem_of_app. setoid_rewrite list_elem_of_singleton.
    case_bool_decide.
    + split; [done|]. intros Hall. destruct (Hall g'); auto.
    + rewrite IH. split.
      * intros Hall g [?| ->]; auto.
      * intros Hall g ?. auto.
Qed.

Section grid_partition.
Context (l : list Z) (tp dp : Z).
Hypothesis tp_pos : 0 < tp.
Hypothesis grid_full : dp * tp = Z.of_nat (length l).
Hypothesis ranks_distinct : NoDup l.

Lemma in_row_of_position (p : nat) (x : Z) :
  l !! p = Some x →
  0 ≤ Z.of_nat p `div` tp < dp ∧ x ∈ grid_row l tp (Z.of_nat p `div` tp).
Proof.
  intros Hp. pose proof (lookup_lt_Some _ _ _ Hp) as Hlt.
  pose proof (Z.div_mod (Z.of_nat p) tp ltac:(lia)) as Hdm.
  pose proof (Z.mod_pos_bound (Z.of_nat p) tp tp_pos) as Hmod.
  assert (0 ≤ Z.of_nat p `div` tp) as H0 by (apply Z.div_pos; lia).
  split; [nia|].
  apply elem_of_grid_row; [done|lia|]. exists p. split; [done|nia].
Qed.

Lemma in_col_of_position (p : nat) (x : Z) :
  l !! p = Some x →
  0 ≤ Z.of_nat p `mod` tp < tp ∧ x ∈ grid_col l tp dp (Z.of_nat p `mod` tp).
Proof.
  intros Hp. pose proof (lookup_lt_Some _ _ _ Hp) as Hlt.
  pose proof (Z.div_mod (Z.of_nat p) tp ltac:(lia)) as Hdm.
  pose proof (Z.mod_pos_bound (Z.of_nat p) tp tp_pos) as Hmod.
  assert (0 ≤ Z.of_nat p `div` tp) as H0 by (apply Z.div_pos; lia).
  split; [done|].
  apply elem_of_grid_col. exists (Z.of_nat p `div` tp). split; [nia|].
  replace (Z.of_nat p `div` tp * tp + Z.of_nat p `mod` tp) with (Z.of_nat p) by lia.
  by rewrite Nat2Z.id.
Qed.

Lemma row_of_rank_unique (x i i' : Z) :
  0 ≤ i < dp → 0 ≤ i' < dp →
  x ∈ grid_row l tp i → x ∈ grid_row l tp i' → i = i'.
Proof.
  intros Hi Hi'.
  rewrite !elem_of_grid_row by lia.
  intros (p & Hp & Hr) (p' & Hp' & Hr').
  assert (p = p') as <- by (by eapply NoDup_lookup).
  assert (i < i' + 1) by (apply (Z.mul_lt_mono_pos_r tp); lia).
  assert (i' < i + 1) by (apply (Z.mul_lt_mono_pos_r tp); lia).
  lia.
Qed.

Lemma col_of_rank_unique (x j j' : Z) :
  0 ≤ j < tp → 0 ≤ j' < tp →
  x ∈ grid_col l tp dp j → x ∈ grid_col l tp dp j' → j = j'.
Proof.
  intros Hj Hj'.
  rewrite !elem_of_grid_col.
  intros (i & Hi & Hp) (i' & Hi' & Hp').
  assert (Z.to_nat (i * tp + j) = Z.to_nat (i' * tp + j')) as Heq
    by (by eapply NoDup_lookup).
  assert (i * tp + j = i' * tp + j') as Hpos by nia.
  assert (i < i' + 1) by (apply (Z.mul_lt_mono_pos_r tp); lia).
  assert (i' < i + 1) by (apply (Z.mul_lt_mono_pos_r tp); lia).
  assert (i = i') as -> by lia. lia.
Qed.

End grid_partition.

(** C5.  A constructed topology with a positive [tp_degree] over distinct
    ranks.  The degrees multiply to the world size.  The list [__init__]
    builds for row [i] is [grid_row], the ranks at positions
    [[i * tp, i * tp + tp)]; the list it builds for column [j] is [grid_col],
    the ranks at positions [i * tp + j].  Every rank of the world is in
    exactly one row and in exactly one column, the rows together and the
    columns together hold exactly the ranks of the world, and the object
    records the row and the column that contain its own rank. *)
Theorem grid_is_row_major_partition (rt : dist) (rank : option Z) (ranks : option (list Z))
    (tp_degree dp_degree : option Z) (σ σ' : process) (pg : ProcessGroup) (a : attributes) :
  ProcessGroup_init rt rank ranks tp_degree dp_degree σ = (Ok pg, σ') →
  attrs pg = Some a →
  0 < _tp_degree a →
  NoDup (_rank_list a) →
  let l := _rank_list a in
  let tp := _tp_degree a in
  let dp := _dp_degree a in
  tp * dp = Z.of_nat (length l)
  ∧ (∀ i, 0 ≤ i < dp →
       i_tp_list l tp i = Ok (grid_row l tp i)
       ∧ ∀ x, x ∈ grid_row l tp i ↔
              ∃ p : nat, l !! p = Some x ∧ i * tp ≤ Z.of_nat p < i * tp + tp)
  ∧ (∀ j, 0 ≤ j < tp →
       j_dp_list l tp dp j = Ok (grid_col l tp dp j)
       ∧ ∀ x, x ∈ grid_col l tp dp j ↔
              ∃ i, 0 ≤ i < dp ∧ l !! Z.to_nat (i * tp + j) = Some x)
  ∧ (∀ x, x ∈ l →
       (exists ! i, 0 ≤ i < dp ∧ x ∈ grid_row l tp i)
       ∧ (exists ! j, 0 ≤ j < tp ∧ x ∈ grid_col l tp dp j))
  ∧ (∀ x, x ∈ l ↔ ∃ i, 0 ≤ i < dp ∧ x ∈ grid_row l tp i)
  ∧ (∀ x, x ∈ l ↔ ∃ j, 0 ≤ j < tp ∧ x ∈ grid_col l tp dp j)
  ∧ (_rank a ∈ l →
       ∃ i j, (0 ≤ i < dp ∧ _rank a ∈ grid_row l tp i
               ∧ _tp_rank_list a = Some (grid_row l tp i))
              ∧ (0 ≤ j < tp ∧ _rank a ∈ grid_col l tp dp j
                 ∧ _dp_rank_list a = Some (grid_col l tp dp j))).
Proof.
  intros Hrun Ha Htp Hnd l tp dp.
  destruct (ProcessGroup_init_inv _ _ _ _ _ _ _ _ _ Hrun Ha)
    as (_ & Hres & Hpg & Hl & Hr & Htpl & Hdpl & _).
  pose proof (resolve_degrees_product _ _ _ _ _ Hres) as Hprod.
  rewrite <-Hl in Hprod. fold l tp dp in Hprod, Htp, Hnd.
  assert (0 ≤ dp) as Hdp by nia.
  assert (∀ x, x ∈ l → ∃ i, 0 ≤ i < dp ∧ x ∈ grid_row l tp i) as Hrow.
  { intros x (p & Hp)%list_elem_of_lookup. eexists. by eapply in_row_of_position. }
  assert (∀ x, x ∈ l → ∃ j, 0 ≤ j < tp ∧ x ∈ grid_col l tp dp j) as Hcol.
  { intros x (p & Hp)%list_elem_of_lookup. eexists. by eapply in_col_of_position. }
  split; [lia|]. split; [|split; [|split; [|split; [|split]]]].
  - intros i Hi. split; [apply i_tp_list_ok; nia|].
    intros x. apply elem_of_grid_row; lia.
  - intros j Hj. split; [apply j_dp_list_ok; lia|].
    intros x. apply elem_of_grid_col.
  - intros x Hx. split.
    + destruct (Hrow x Hx) as (i & Hi & Hin). exists i. split; [done|].
      intros i' [Hi' Hin']. by eapply (row_of_rank_unique l tp dp).
    + destruct (Hcol x Hx) as (j & Hj & Hin). exists j. split; [done|].
      intros j' [Hj' Hin']. by eapply (col_of_rank_unique l tp dp).
  - intros x. split; [apply Hrow|].
    intros (i & _ & Hin). by eapply grid_row_subseteq.
  - intros x. split; [apply Hcol|].
    intros (j & _ & Hin). by eapply grid_col_subseteq.
  - intros Hself. fold l tp dp in Htpl, Hdpl. rewrite Htpl, Hdpl.
    destruct (pick (_rank a) (grid_rows l tp dp)) as [row|] eqn:Hpr.
    2:{ destruct (Hrow _ Hself) as (i & Hi & Hin).
        rewrite pick_None in Hpr. destruct (Hpr (grid_row l tp i)); [|done].
        apply list_elem_of_fmap_2. by apply elem_of_seqZ. }
    destruct (pick (_rank a) (grid_cols l tp dp)) as [col|] eqn:Hpc.
    2:{ destruct (Hcol _ Hself) as (j & Hj & Hin).
        rewrite pick_None in Hpc. destruct (Hpc (grid_col l tp dp j)); [|done].
        apply list_elem_of_fmap_2. by apply elem_of_seqZ. }
    apply pick_Some in Hpr as [(i & -> & Hi%elem_of_seqZ)%list_elem_of_fmap Hri].
    apply pick_Some in Hpc as [(j & -> & Hj%elem_of_seqZ)%list_elem_of_fmap Hrj].
    exists i, j. split; (split; [lia|done]).
Qed.

(** C4.  Resolution of the degrees by [__init__], for degrees that are not
    [0] when given; [ws] is the number of ranks of the world.  Neither
    given: [dp_degree = ws] and [tp_degree = 1].  One given: the other is
    [ws] divided by it, and the construction raises (the [AssertionError] of
    the divisibility assertion) when the given degree does not divide [ws].
    Both given: the construction raises unless their product is [ws]. *)
Theorem degree_resolution (rt : dist) (rank : option Z) (ranks : option (list Z))
    (tp_degree dp_degree : option Z) (σ : process) :
  is_initialized rt = true →
  (∀ d, dp_degree = Some d → d ≠ 0) →
  (∀ t, tp_degree = Some t → t ≠ 0) →
  let ws := Z.of_nat (length (world_ranks rt ranks)) in
  let r := (ProcessGroup_init rt rank ranks tp_degree dp_degree σ).1 in
  match dp_degree, tp_degree with
  | None, None => degrees_of r = Some (ws, 1)
  | Some d, None =>
      if decide (ws `mod` d = 0) then degrees_of r = Some (d, ws `div` d)
      else r = Raise AssertionError
  | None, Some t =>
      if decide (ws `mod` t = 0) then degrees_of r = Some (ws `div` t, t)
      else r = Raise AssertionError
  | Some d, Some t =>
      if decide (d * t = ws) then degrees_of r = Some (d, t)
      else r = Raise AssertionError
  end.
Proof.
  intros Hinit Hdp Htp ws r.
  assert (∀ dp tp, resolve_degrees ws tp_degree dp_degree = Ok (dp, tp) →
                   degrees_of r = Some (dp, tp)) as Hok.
  { intros dp tp Hres. unfold r.
    by rewrite (ProcessGroup_init_resolved _ _ _ _ _ dp tp). }
  assert (∀ e, resolve_degrees ws tp_degree dp_degree = Raise e → r = Raise e) as Hraise.
  { intros e Hres. unfold r. by rewrite (ProcessGroup_init_raise _ _ _ _ _ e). }
  destruct dp_degree as [d|], tp_degree as [t|].
  - specialize (Hdp d eq_refl). specialize (Htp t eq_refl).
    case_decide; [apply Hok|apply Hraise]; unfold resolve_degrees, truthy;
      cbn; eqb_cases; done || (exfalso; lia).
  - specialize (Hdp d eq_refl).
    case_decide; [apply Hok|apply Hraise]; unfold resolve_degrees, truthy;
      cbn; eqb_cases; done || (exfalso; lia).
  - specialize (Htp t eq_refl).
    case_decide; [apply Hok|apply Hraise]; unfold resolve_degrees, truthy;
      cbn; eqb_cases; done || (exfalso; lia).
  - by apply Hok.
Qed.

Lemma degree_resolution_witness :
  degrees_of (ProcessGroup_init six_ranks None None None (Some 2) fresh_process).1
    = Some (2, 3).
Proof.
  apply (degree_resolution six_ranks None None None (Some 2) fresh_process).
  - reflexivity.
  - intros d [= <-]. lia.
  - intros t [=].
Defined.

(** The scenarios of the design document for six ranks. *)
Example six_ranks_dp_two :
  (ProcessGroup_init six_ranks None None None (Some 2) fresh_process).1
    = Ok (constructed six_ranks None None 2 3).
Proof. vm_compute. reflexivity. Qed.

Example six_ranks_dp_four :
  ProcessGroup_init six_ranks None None None (Some 4) fresh_process
    = (Raise AssertionError, fresh_process).
Proof. vm_compute. reflexivity. Qed.

(** A degree given as [0] is false for Python's [and] and [not], and is
    resolved like an omitted one. *)
Remark zero_degree_is_resolved_like_none :
  resolve_degrees 4 (Some 2) (Some 0) = Ok (2, 2)
  ∧ resolve_degrees 4 None (Some 0) = Raise TypeError.
Proof. split; reflexivity. Qed.

(** C7.  Without an initialized runtime [__init__] returns an object that
    has [is_init = False] and no other attribute, leaves the process as it
    is, and every accessor of that object raises ([AttributeError], for the
    attribute that was never set). *)
Theorem uninitialized_accessors_fail (rt : dist) (rk : option Z) (ranks : option (list Z))
    (tp_degree dp_degree : option Z) (σ : process) :
  is_initialized rt = false →
  ∃ pg,
    ProcessGroup_init rt rk ranks tp_degree dp_degree σ = (Ok pg, σ)
    ∧ is_init pg = false
    ∧ attrs pg = None
    ∧ rank pg = Raise AttributeError
    ∧ ranks_in_group pg = Raise AttributeError
    ∧ pg_world_size pg = Raise AttributeError
    ∧ tp_rank_list pg = Raise AttributeError
    ∧ dp_rank_list pg = Raise AttributeError
    ∧ get_ranks_in_tp pg = Raise AttributeError
    ∧ get_ranks_in_dp pg = Raise AttributeError
    ∧ tp_local_rank pg = Raise AttributeError
    ∧ dp_local_rank pg = Raise AttributeError
    ∧ tp_world_size pg = Raise AttributeError
    ∧ dp_world_size pg = Raise AttributeError
    ∧ has_cpu_groups pg = Raise AttributeError
    ∧ ∀ σ', tp_process_group pg σ' = (Raise AttributeError, σ')
            ∧ dp_process_group pg σ' = (Raise AttributeError, σ')
            ∧ cpu_tp_process_group pg σ' = (Raise AttributeError, σ')
            ∧ cpu_dp_process_group pg σ' = (Raise AttributeError, σ').
Proof.
  intros Hinit. eexists. split; [by apply ProcessGroup_init_uninitialized|].
  repeat split.
Qed.

Lemma uninitialized_accessors_fail_witness :
  ∃ pg,
    ProcessGroup_init no_runtime (Some 1) (Some [0; 1; 2; 3]) (Some 2) (Some 2) fresh_process
      = (Ok pg, fresh_process)
    ∧ is_init pg = false
    ∧ attrs pg = None
    ∧ rank pg = Raise AttributeError
    ∧ ranks_in_group pg = Raise AttributeError
    ∧ pg_world_size pg = Raise AttributeError
    ∧ tp_rank_list pg = Raise AttributeError
    ∧ dp_rank_list pg = Raise AttributeError
    ∧ get_ranks_in_tp pg = Raise AttributeError
    ∧ get_ranks_in_dp pg = Raise AttributeError
    ∧ tp_local_rank pg = Raise AttributeError
    ∧ dp_local_rank pg = Raise AttributeError
    ∧ tp_world_size pg = Raise AttributeError
    ∧ dp_world_size pg = Raise AttributeError
    ∧ has_cpu_groups pg = Raise AttributeError
    ∧ ∀ σ', tp_process_group pg σ' = (Raise AttributeError, σ')
            ∧ dp_process_group pg σ' = (Raise AttributeError, σ')
            ∧ cpu_tp_process_group pg σ' = (Raise AttributeError, σ')
            ∧ cpu_dp_process_group pg σ' = (Raise AttributeError, σ').
Proof.
  apply (uninitialized_accessors_fail no_runtime (Some 1) (Some [0; 1; 2; 3])
           (Some 2) (Some 2) fresh_process).
  reflexivity.
Defined.

(** ** Registration *)

Lemma register_all_cons (b : string) (g : list Z) (gs : list (list Z)) (σ : process) :
  register_all b (g :: gs) σ = register_all b gs (get (Some g) b σ).2.
Proof. done. Qed.

Lemma register_all_mono (b : string) (gs : list (list Z)) (σ : process)
    (k : string * list Z) (h : GroupHandle) :
  dict (PYTORCHPGDICT_ σ) !! k = Some h →
  dict (PYTORCHPGDICT_ (register_all b gs σ)) !! k = Some h.
Proof.
  revert σ. induction gs as [|g gs IH]; intros σ Hk; [done|].
  rewrite register_all_cons. by apply IH, get_mono.
Qed.

(** After a registration every group of the sequence is in the cache. *)
Lemma register_all_cached (b : string) (gs : list (list Z)) (σ : process) (g : list Z) :
  g ∈ gs → is_Some (dict (PYTORCHPGDICT_ (register_all b gs σ)) !! (b, g)).
Proof.
  revert σ. induction gs as [|g' gs IH]; intros σ Hg; [by apply elem_of_nil in Hg|].
  rewrite register_all_cons. apply elem_of_cons in Hg as [->|Hg]; [|by apply IH].
  destruct (get_cached g' b σ) as (h & _ & Hc).
  exists h. by apply register_all_mono.
Qed.

(** Registering groups that are pairwise different and not yet cached
    issues one [new_group] call for each, in the order of the sequence. *)
Lemma register_all_fresh (b : string) (gs : list (list Z)) (σ : process) :
  NoDup gs →
  (∀ g, g ∈ gs → dict (PYTORCHPGDICT_ σ) !! (b, g) = None) →
  new_group_calls (register_all b gs σ) =
    new_group_calls σ ++ ((fun g => (g, b)) <$> gs).
Proof.
  revert σ. induction gs as [|g gs IH]; intros σ Hnd Hnew.
  - cbn. by rewrite app_nil_r.
  - apply NoDup_cons in Hnd as [Hg Hnd].
    rewrite register_all_cons, get_miss by (apply Hnew; constructor).
    rewrite IH; [|done|].
    + cbn. by rewrite <-app_assoc.
    + intros g' Hg'. cbn. rewrite lookup_insert_ne.
      * apply Hnew. by constructor.
      * intros [= ->]. done.
Qed.

(** A registration that finds every group cached changes nothing. *)
Lemma register_all_hit (b : string) (gs : list (list Z)) (σ : process) :
  (∀ g, g ∈ gs → is_Some (dict (PYTORCHPGDICT_ σ) !! (b, g))) →
  register_all b gs σ = σ.
Proof.
  induction gs as [|g gs IH]; intros Hall; [done|].
  destruct (Hall g) as [h Hh]; [by constructor|].
  rewrite register_all_cons, (get_hit _ _ _ _ Hh). apply IH.
  intros g' Hg'. apply Hall. by constructor.
Qed.

Lemma set_cpu_groups_noop (pg : ProcessGroup) (a : attributes) (σ : process) :
  attrs pg = Some a → _has_cpu_groups a = true → set_cpu_groups pg σ = (Ok pg, σ).
Proof.
  intros Ha Hflag. unfold set_cpu_groups, has_cpu_groups, getattr, mbind, lift.
  by rewrite Ha, Hflag.
Qed.

Lemma set_cpu_groups_first (pg : ProcessGroup) (a : attributes) (σ : process) :
  attrs pg = Some a →
  _has_cpu_groups a = false →
  _dp_degree a * _tp_degree a = Z.of_nat (length (_rank_list a)) →
  set_cpu_groups pg σ =
    (Ok {| is_init := is_init pg; attrs := Some (set_has_cpu_groups a true) |},
     register_all "gloo"
       (grid_rows (_rank_list a) (_tp_degree a) (_dp_degree a)
        ++ grid_cols (_rank_list a) (_tp_degree a) (_dp_degree a)) σ).
Proof.
  intros Ha Hflag Hprod.
  unfold set_cpu_groups, has_cpu_groups, getattr. rewrite Ha.
  unfold mbind at 1. unfold lift at 1. rewrite Hflag.
  unfold mbind at 1. unfold lift at 1. cbn [id].
  unfold mbind at 1.
  rewrite (for__foldl _ _ (fun _ _ => ())
             (fun σ i => (get (Some (grid_row (_rank_list a) (_tp_degree a) i)) "gloo" σ).2)).
  2:{ intros i [] σ' Hi%elem_of_seqZ. unfold mbind, lift, mret.
      rewrite i_tp_list_ok by nia.
      by destruct (get_cached (grid_row (_rank_list a) (_tp_degree a) i) "gloo" σ')
        as (h & -> & _). }
  unfold mbind at 1.
  rewrite (for__foldl _ _ (fun _ _ => ())
             (fun σ j => (get (Some (grid_col (_rank_list a) (_tp_degree a) (_dp_degree a) j))
                            "gloo" σ).2)).
  2:{ intros j [] σ' Hj%elem_of_seqZ. unfold mbind, lift, mret.
      rewrite j_dp_list_ok by lia.
      by destruct (get_cached (grid_col (_rank_list a) (_tp_degree a) (_dp_degree a) j)
                     "gloo" σ') as (h & -> & _). }
  unfold mret. f_equal.
  rewrite register_all_app. unfold register_all, grid_rows, grid_cols.
  by rewrite !foldl_fmap.
Qed.

(** C9.  [set_cpu_groups] on a constructed topology.  The first call
    registers every row and then every column under ["gloo"], so that each of
    them is cached afterwards, and returns the object with the flag set.  On
    any object whose flag is set the call returns the object and leaves the
    process untouched: no [new_group] call, same cache.  Hence two calls in a
    row leave the same object and the same process as one call does. *)
Theorem set_cpu_groups_idempotent (rt : dist) (rk : option Z) (ranks : option (list Z))
    (tp_degree dp_degree : option Z) (σ0 σ1 σ : process) (pg : ProcessGroup) (a : attributes) :
  ProcessGroup_init rt rk ranks tp_degree dp_degree σ0 = (Ok pg, σ1) →
  attrs pg = Some a →
  let groups := grid_rows (_rank_list a) (_tp_degree a) (_dp_degree a)
                ++ grid_cols (_rank_list a) (_tp_degree a) (_dp_degree a) in
  (∀ pg0 a0 σ', attrs pg0 = Some a0 → _has_cpu_groups a0 = true →
                set_cpu_groups pg0 σ' = (Ok pg0, σ'))
  ∧ ∃ pg',
      set_cpu_groups pg σ = (Ok pg', register_all "gloo" groups σ)
      ∧ has_cpu_groups pg' = Ok true
      ∧ (∀ g, g ∈ groups →
           is_Some (dict (PYTORCHPGDICT_ (register_all "gloo" groups σ)) !! ("gloo", g)))
      ∧ (∀ σ', set_cpu_groups pg' σ' = (Ok pg', σ'))
      ∧ (pg2 ⇐ set_cpu_groups pg; set_cpu_groups pg2)%py σ = set_cpu_groups pg σ.
Proof.
  intros Hrun Ha groups.
  destruct (ProcessGroup_init_inv _ _ _ _ _ _ _ _ _ Hrun Ha)
    as (_ & Hres & _ & Hl & _ & _ & _ & Hflag).
  pose proof (resolve_degrees_product _ _ _ _ _ Hres) as Hprod. rewrite <-Hl in Hprod.
  split; [intros pg0 a0 σ' Ha0 H0; by eapply set_cpu_groups_noop|].
  pose proof (set_cpu_groups_first pg a σ Ha Hflag Hprod) as Hfirst. fold groups in Hfirst.
  eexists. split; [exact Hfirst|].
  assert (∀ σ', set_cpu_groups
                  {| is_init := is_init pg; attrs := Some (set_has_cpu_groups a true) |} σ'
                = (Ok {| is_init := is_init pg; attrs := Some (set_has_cpu_groups a true) |}, σ'))
    as Hnoop by (intros σ'; by eapply set_cpu_groups_noop).
  split; [done|]. split; [intros g Hg; by apply register_all_cached|].
  split; [done|].
  unfold mbind. by rewrite Hfirst, Hnoop.
Qed.

(** C10.  With an initialized runtime and degrees that resolve, a rank that
    is not among the ranks of the world does not stop the construction: the
    object is returned with [_tp_rank_list] and [_dp_rank_list] left [None].
    On that object the size accessors and the group accessors raise
    ([TypeError], from [len(None)] and [tuple(None)]) and leave the process
    as it is; the CPU group accessors raise as well, on their assertion. *)
Theorem rank_outside_world_leaves_lists_unset (rt : dist) (rk : option Z)
    (ranks : option (list Z)) (tp_degree dp_degree : option Z) (dp tp : Z) (σ : process) :
  is_initialized rt = true →
  self_rank rt rk ∉ world_ranks rt ranks →
  resolve_degrees (Z.of_nat (length (world_ranks rt ranks))) tp_degree dp_degree = Ok (dp, tp) →
  ∃ pg σ',
    ProcessGroup_init rt rk ranks tp_degree dp_degree σ = (Ok pg, σ')
    ∧ tp_rank_list pg = Ok None
    ∧ dp_rank_list pg = Ok None
    ∧ tp_world_size pg = Raise TypeError
    ∧ dp_world_size pg = Raise TypeError
    ∧ ∀ σ'', tp_process_group pg σ'' = (Raise TypeError, σ'')
             ∧ dp_process_group pg σ'' = (Raise TypeError, σ'')
             ∧ cpu_tp_process_group pg σ'' = (Raise AssertionError, σ'')
             ∧ cpu_dp_process_group pg σ'' = (Raise AssertionError, σ'').
Proof.
  intros Hinit Hout Hres.
  assert (pick (self_rank rt rk) (grid_rows (world_ranks rt ranks) tp dp) = None) as Hrows.
  { apply pick_None. intros g (i & -> & _)%list_elem_of_fmap Hin.
    by apply Hout, (grid_row_subseteq _ tp i). }
  assert (pick (self_rank rt rk) (grid_cols (world_ranks rt ranks) tp dp) = None) as Hcols.
  { apply pick_None. intros g (j & -> & _)%list_elem_of_fmap Hin.
    by apply Hout, (grid_col_subseteq _ tp dp j). }
  do 2 eexists. split; [by apply ProcessGroup_init_resolved|].
  unfold tp_rank_list, dp_rank_list, tp_world_size, dp_world_size, tp_process_group,
    dp_process_group, cpu_tp_process_group, cpu_dp_process_group, getattr, constructed.
  cbn. rewrite Hrows, Hcols. repeat split.
Qed.

(** C3.  Two constructions that differ in the rank only (two ranks of one
    job: the runtime reports the same world, the arguments [ranks],
    [tp_degree] and [dp_degree] are the same), started in the same process
    state.  Both leave the same process state, hence the same sequence of
    [new_group] calls and the same cache, and one fails exactly when the
    other does.  The state they leave is the registration, under ["nccl"],
    of rows [0 .. dp - 1] followed by columns [0 .. tp - 1], which are
    functions of the rank list and the degrees; when these groups are
    pairwise different and none is cached yet, the [new_group] calls issued
    are exactly these groups in that order. *)
Theorem creation_sequence_independent_of_rank (rt1 rt2 : dist) (rank1 rank2 : option Z)
    (ranks : option (list Z)) (tp_degree dp_degree : option Z) (σ : process) :
  is_initialized rt1 = is_initialized rt2 →
  get_world_size rt1 = get_world_size rt2 →
  let run1 := ProcessGroup_init rt1 rank1 ranks tp_degree dp_degree σ in
  let run2 := ProcessGroup_init rt2 rank2 ranks tp_degree dp_degree σ in
  run1.2 = run2.2
  ∧ (failed run1.1 ↔ failed run2.1)
  ∧ ∀ pg a, run1.1 = Ok pg → attrs pg = Some a →
      let groups := grid_rows (_rank_list a) (_tp_degree a) (_dp_degree a)
                    ++ grid_cols (_rank_list a) (_tp_degree a) (_dp_degree a) in
      _rank_list a = world_ranks rt1 ranks
      ∧ run1.2 = register_all "nccl" groups σ
      ∧ (NoDup groups →
         (∀ g, g ∈ groups → dict (PYTORCHPGDICT_ σ) !! ("nccl", g) = None) →
         new_group_calls run1.2 = new_group_calls σ ++ ((fun g => (g, "nccl")) <$> groups)).
Proof.
  intros Hinit Hws run1 run2.
  assert (world_ranks rt1 ranks = world_ranks rt2 ranks) as Hl.
  { unfold world_ranks. by rewrite Hws. }
  assert (run1.2 = run2.2 ∧ (failed run1.1 ↔ failed run2.1)) as [Hstate Hfail].
  { unfold run1, run2.
    destruct (is_initialized rt1) eqn:H1; symmetry in Hinit.
    - destruct (resolve_degrees (Z.of_nat (length (world_ranks rt1 ranks))) tp_degree dp_degree)
        as [[dp tp]|e] eqn:Hres.
      + rewrite (ProcessGroup_init_resolved rt1 _ _ _ _ dp tp) by done.
        rewrite (ProcessGroup_init_resolved rt2 _ _ _ _ dp tp) by (by rewrite <-?Hl).
        by rewrite Hl.
      + rewrite (ProcessGroup_init_raise rt1 _ _ _ _ e) by done.
        by rewrite (ProcessGroup_init_raise rt2 _ _ _ _ e) by (by rewrite <-?Hl).
    - by rewrite !ProcessGroup_init_uninitialized. }
  split; [done|]. split; [done|].
  intros pg a Hpg Ha groups.
  assert (ProcessGroup_init rt1 rank1 ranks tp_degree dp_degree σ = (Ok pg, run1.2)) as Hrun.
  { fold run1. rewrite <-Hpg. by destruct run1. }
  destruct (ProcessGroup_init_inv _ _ _ _ _ _ _ _ _ Hrun Ha)
    as (Hi & Hres & _ & Hrl & _).
  split; [done|].
  assert (run1.2 = register_all "nccl" groups σ) as Hreg.
  { unfold run1. rewrite (ProcessGroup_init_resolved rt1 _ _ _ _ _ _ _ Hi Hres).
    unfold groups. by rewrite Hrl. }
  split; [done|]. intros Hnd Hnew. rewrite Hreg. by apply register_all_fresh.
Qed.

(** ** The 2 x 2 grid of the design document *)

Lemma two_by_two_run :
  ProcessGroup_init four_ranks (Some 1) (Some [3; 1; 0; 2]) (Some 2) (Some 2) fresh_process
    = (Ok two_by_two, after_two_by_two).
Proof. vm_compute. reflexivity. Qed.

Example two_by_two_groups :
  grid_rows [0; 1; 2; 3] 2 2 = [[0; 1]; [2; 3]]
  ∧ grid_cols [0; 1; 2; 3] 2 2 = [[0; 2]; [1; 3]]
  ∧ new_group_calls after_two_by_two
    = [([0; 1], "nccl"); ([2; 3], "nccl"); ([0; 2], "nccl"); ([1; 3], "nccl")].
Proof. repeat split; vm_compute; reflexivity. Qed.

Lemma grid_is_row_major_partition_witness :
  2 * 2 = Z.of_nat (length [0; 1; 2; 3])
  ∧ ∃ i j, (0 ≤ i < 2 ∧ 1 ∈ grid_row [0; 1; 2; 3] 2 i
            ∧ Some [0; 1] = Some (grid_row [0; 1; 2; 3] 2 i))
           ∧ (0 ≤ j < 2 ∧ 1 ∈ grid_col [0; 1; 2; 3] 2 2 j
              ∧ Some [1; 3] = Some (grid_col [0; 1; 2; 3] 2 2 j)).
Proof.
  destruct (grid_is_row_major_partition four_ranks (Some 1) (Some [3; 1; 0; 2])
              (Some 2) (Some 2) fresh_process after_two_by_two two_by_two two_by_two_attrs)
    as (Hprod & _ & _ & _ & _ & _ & Hself).
  - exact two_by_two_run.
  - reflexivity.
  - reflexivity.
  - compute_done.
  - split; [exact Hprod|]. apply Hself.
    compute_done.
Defined.

Lemma set_cpu_groups_idempotent_witness :
  ∃ pg',
    set_cpu_groups two_by_two after_two_by_two
      = (Ok pg', register_all "gloo" [[0; 1]; [2; 3]; [0; 2]; [1; 3]] after_two_by_two)
    ∧ has_cpu_groups pg' = Ok true
    ∧ (∀ σ', set_cpu_groups pg' σ' = (Ok pg', σ'))
    ∧ (pg2 ⇐ set_cpu_groups two_by_two; set_cpu_groups pg2)%py after_two_by_two
      = set_cpu_groups two_by_two after_two_by_two.
Proof.
  destruct (set_cpu_groups_idempotent four_ranks (Some 1) (Some [3; 1; 0; 2])
              (Some 2) (Some 2) fresh_process after_two_by_two after_two_by_two
              two_by_two two_by_two_attrs)
    as (_ & pg' & Hfirst & Hflag & _ & Hnoop & Htwice).
  - exact two_by_two_run.
  - reflexivity.
  - exists pg'. split; [exact Hfirst|]. split; [exact Hflag|]. split; [exact Hnoop|exact Htwice].
Defined.

(** The calls that [set_cpu_groups] issues on the 2 x 2 grid, and none on
    the second call. *)
Example two_by_two_cpu_groups :
  new_group_calls (set_cpu_groups two_by_two after_two_by_two).2
    = new_group_calls after_two_by_two
      ++ [([0; 1], "gloo"); ([2; 3], "gloo"); ([0; 2], "gloo"); ([1; 3], "gloo")]
  ∧ (pg2 ⇐ set_cpu_groups two_by_two; set_cpu_groups pg2)%py after_two_by_two
    = set_cpu_groups two_by_two after_two_by_two.
Proof. split; vm_compute; reflexivity. Qed.

Lemma rank_outside_world_leaves_lists_unset_witness :
  ∃ pg σ',
    ProcessGroup_init four_ranks (Some 7) None (Some 2) (Some 2) fresh_process = (Ok pg, σ')
    ∧ tp_rank_list pg = Ok None
    ∧ dp_rank_list pg = Ok None
    ∧ tp_world_size pg = Raise TypeError
    ∧ dp_world_size pg = Raise TypeError
    ∧ ∀ σ'', tp_process_group pg σ'' = (Raise TypeError, σ'')
             ∧ dp_process_group pg σ'' = (Raise TypeError, σ'')
             ∧ cpu_tp_process_group pg σ'' = (Raise AssertionError, σ'')
             ∧ cpu_dp_process_group pg σ'' = (Raise AssertionError, σ'').
Proof.
  apply (rank_outside_world_leaves_lists_unset four_ranks (Some 7) None (Some 2) (Some 2) 2 2
           fresh_process).
  - reflexivity.
  - compute_done.
  - reflexivity.
Defined.

Lemma creation_sequence_independent_of_rank_witness :
  (ProcessGroup_init four_ranks None None (Some 2) (Some 2) fresh_process).2
    = (ProcessGroup_init four_ranks_seen_from_3 None None (Some 2) (Some 2) fresh_process).2
  ∧ new_group_calls (ProcessGroup_init four_ranks None None (Some 2) (Some 2) fresh_process).2
    = [] ++ ((fun g => (g, "nccl")) <$> grid_rows [0; 1; 2; 3] 2 2 ++ grid_cols [0; 1; 2; 3] 2 2).
Proof.
  destruct (creation_sequence_independent_of_rank four_ranks four_ranks_seen_from_3
              None None None (Some 2) (Some 2) fresh_process) as (Hsame & _ & Hseq).
  - reflexivity.
  - reflexivity.
  - split; [exact Hsame|].
    destruct (Hseq two_by_two two_by_two_attrs) as (_ & _ & Hcalls).
    + vm_compute. reflexivity.
    + reflexivity.
    + apply Hcalls.
      * compute_done.
      * intros g _. apply lookup_empty.
Defined.

(** * Further properties of the code *)

(** ** The cache over sequences of requests *)

Lemma get_None (b : string) (σ : process) : get None b σ = (Raise TypeError, σ).
Proof. done. Qed.

Lemma serve_snoc (reqs : list (option (list Z) * string)) (rl : option (list Z))
    (b : string) (σ : process) :
  serve (reqs ++ [(rl, b)]) σ = (get rl b (serve reqs σ)).2.
Proof. unfold serve. by rewrite foldl_snoc. Qed.

Lemma serve_consistent (requests : list (option (list Z) * string)) (σ : process) :
  cache_consistent σ → cache_consistent (serve requests σ).
Proof.
  intros Hσ. induction requests as [|[rl b] reqs IH] using rev_ind; [done|].
  rewrite serve_snoc. by apply get_consistent.
Qed.

(** X1.  Whatever sequence of [get] calls a fresh process of rank [r]
    serves, rank lists or [None], under any backends: every cached handle
    names the [new_group] call that was made with the ranks and the backend
    of its key, and the objects held under two keys are one object only when
    the keys are one key, or when the process belongs to neither rank list
    and both are [NON_GROUP_MEMBER]. *)
Theorem cache_consistent_after_any_requests (r : Z)
    (requests : list (option (list Z) * string)) :
  (∀ b l h, dict (PYTORCHPGDICT_ (serve requests fresh_process)) !! (b, l) = Some h →
            new_group_calls (serve requests fresh_process) !! h = Some (l, b))
  ∧ (∀ b l h b' l' h',
       dict (PYTORCHPGDICT_ (serve requests fresh_process)) !! (b, l) = Some h →
       dict (PYTORCHPGDICT_ (serve requests fresh_process)) !! (b', l') = Some h' →
       ∃ o o',
         returned_object r (serve requests fresh_process) h = Some o
         ∧ returned_object r (serve requests fresh_process) h' = Some o'
         ∧ (o = o' ↔ (b = b' ∧ l = l') ∨ ((r ∉ l) ∧ (r ∉ l')))).
Proof.
  pose proof (serve_consistent requests fresh_process cache_consistent_fresh) as Hcons.
  split; [apply Hcons|].
  intros b l h b' l' h'. by apply cached_objects.
Qed.

(** X2.  The cache only grows: after any sequence of [get] calls every key
    that was cached is still cached with the handle it had, and the calls
    made to [new_group] before are a prefix of the calls made after. *)
Theorem serve_never_evicts (requests : list (option (list Z) * string)) (σ : process) :
  dict (PYTORCHPGDICT_ σ) ⊆ dict (PYTORCHPGDICT_ (serve requests σ))
  ∧ new_group_calls σ `prefix_of` new_group_calls (serve requests σ).
Proof.
  induction requests as [|[rl b] reqs [IHd IHc]] using rev_ind; [done|].
  rewrite serve_snoc.
  destruct (get_state_cases rl b (serve reqs σ)) as [->|(l & -> & Hmiss & ->)]; [done|].
  cbn. split.
  - etrans; [exact IHd|]. by apply insert_subseteq.
  - by apply prefix_app_r.
Qed.

(** ** Construction: failure, invariants, cost *)

Lemma resolve_degrees_raises (ws : Z) (tp_degree dp_degree : option Z) (e : exn) :
  resolve_degrees ws tp_degree dp_degree = Raise e → e = AssertionError ∨ e = TypeError.
Proof.
  unfold resolve_degrees, truthy.
  destruct dp_degree as [d|], tp_degree as [t|]; cbn; eqb_cases;
    intros [=]; subst; auto.
Qed.

(** X3.  A construction whose degrees do not resolve fails before its first
    [get] call.  With an initialized runtime, when the resolution of the
    degrees raises, [__init__] raises the same exception, and the cache and
    the [new_group] calls are what they were.  The exception is
    [AssertionError] (a failed assertion on the degrees) or [TypeError] (a
    missing degree reaching the product). *)
Theorem construction_failure_leaves_process_untouched (rt : dist) (rk : option Z)
    (ranks : option (list Z)) (tp_degree dp_degree : option Z) (σ : process) (e : exn) :
  is_initialized rt = true →
  resolve_degrees (Z.of_nat (length (world_ranks rt ranks))) tp_degree dp_degree = Raise e →
  ProcessGroup_init rt rk ranks tp_degree dp_degree σ = (Raise e, σ)
  ∧ (e = AssertionError ∨ e = TypeError).
Proof.
  intros Hinit Hres. split.
  - by apply ProcessGroup_init_raise.
  - by eapply resolve_degrees_raises.
Qed.

Lemma construction_failure_leaves_process_untouched_witness :
  ProcessGroup_init six_ranks None None None (Some 4) after_two_by_two
    = (Raise AssertionError, after_two_by_two)
  ∧ (AssertionError = AssertionError ∨ AssertionError = TypeError).
Proof.
  apply (construction_failure_leaves_process_untouched six_ranks None None None (Some 4)
           after_two_by_two AssertionError).
  - reflexivity.
  - vm_compute. reflexivity.
Defined.

(** A missing degree that reaches the product: [tp_degree = 0] without a
    [dp_degree]. *)
Example construction_failure_type_error :
  ProcessGroup_init six_ranks None None (Some 0) None fresh_process
    = (Raise TypeError, fresh_process).
Proof. vm_compute. reflexivity. Qed.

Lemma Sorted_seqZ (m n : Z) : Sorted Z.le (seqZ m n).
Proof.
  assert (∀ (k : nat) m, Sorted Z.le (seqZ m (Z.of_nat k))) as Hk.
  2:{ destruct (Z.le_gt_cases n 0); [by rewrite seqZ_nil|].
      rewrite <-(Z2Nat.id n) by lia. apply Hk. }
  clear m n. induction k as [|k IH]; intros m; [constructor|].
  rewrite seqZ_cons by lia. replace (Z.pred (Z.of_nat (S k))) with (Z.of_nat k) by lia.
  constructor; [apply IH|].
  destruct k as [|k]; [constructor|].
  rewrite seqZ_cons by lia. constructor. lia.
Qed.

Lemma pick_subseteq (r : Z) (gs : list (list Z)) (g l : list Z) :
  (∀ g', g' ∈ gs → g' ⊆ l) → pick r gs = Some g → r ∈ g ∧ g ⊆ l.
Proof. intros Hall [Hg Hr]%pick_Some. auto. Qed.

(** X4.  What [__init__] returns, whenever it returns.  Either the runtime
    is not initialized, the object has [is_init = False] and no other
    attribute, and the process is untouched; or [is_init = True] and the
    attributes satisfy: the degrees multiply to [_world_size], which is the
    length of [_rank_list]; no CPU groups yet; and a recorded row or column
    contains the object's own rank and only ranks of [_rank_list]. *)
Theorem constructed_object_invariant (rt : dist) (rk : option Z) (ranks : option (list Z))
    (tp_degree dp_degree : option Z) (σ σ' : process) (pg : ProcessGroup) :
  ProcessGroup_init rt rk ranks tp_degree dp_degree σ = (Ok pg, σ') →
  (is_initialized rt = false ∧ is_init pg = false ∧ attrs pg = None ∧ σ' = σ)
  ∨ (is_initialized rt = true ∧ is_init pg = true
     ∧ ∃ a, attrs pg = Some a
            ∧ _dp_degree a * _tp_degree a = _world_size a
            ∧ _world_size a = Z.of_nat (length (_rank_list a))
            ∧ _has_cpu_groups a = false
            ∧ (∀ l, _tp_rank_list a = Some l → _rank a ∈ l ∧ l ⊆ _rank_list a)
            ∧ (∀ l, _dp_rank_list a = Some l → _rank a ∈ l ∧ l ⊆ _rank_list a)).
Proof.
  intros Hrun.
  destruct (is_initialized rt) eqn:Hinit.
  2:{ rewrite ProcessGroup_init_uninitialized in Hrun by done.
      injection Hrun as <- <-. by left. }
  right. split; [done|].
  destruct (resolve_degrees (Z.of_nat (length (world_ranks rt ranks))) tp_degree dp_degree)
    as [[dp tp]|e] eqn:Hres.
  2:{ by rewrite (ProcessGroup_init_raise _ _ _ _ _ e) in Hrun. }
  rewrite (ProcessGroup_init_resolved _ _ _ _ _ dp tp) in Hrun by done.
  injection Hrun as <- _. split; [done|]. eexists. split; [done|]. cbn.
  split; [by eapply resolve_degrees_product|]. split; [done|]. split; [done|].
  split; intros l; apply pick_subseteq.
  - intros g (i & -> & _)%list_elem_of_fmap. apply grid_row_subseteq.
  - intros g (j & -> & _)%list_elem_of_fmap. apply grid_col_subseteq.
Qed.

Lemma constructed_object_invariant_witness :
  (is_initialized four_ranks = false ∧ is_init two_by_two = false
   ∧ attrs two_by_two = None ∧ after_two_by_two = fresh_process)
  ∨ (is_initialized four_ranks = true ∧ is_init two_by_two = true
     ∧ ∃ a, attrs two_by_two = Some a
            ∧ _dp_degree a * _tp_degree a = _world_size a
            ∧ _world_size a = Z.of_nat (length (_rank_list a))
            ∧ _has_cpu_groups a = false
            ∧ (∀ l, _tp_rank_list a = Some l → _rank a ∈ l ∧ l ⊆ _rank_list a)
            ∧ (∀ l, _dp_rank_list a = Some l → _rank a ∈ l ∧ l ⊆ _rank_list a)).
Proof.
  apply (constructed_object_invariant four_ranks (Some 1) (Some [3; 1; 0; 2])
           (Some 2) (Some 2) fresh_process).
  exact two_by_two_run.
Defined.

(** X5.  The rank list of a constructed object is in ascending order.  When
    [ranks] is passed it is a rearrangement of [ranks], duplicates kept; when
    it is not, it is [0, 1, ..., get_world_size() - 1]. *)
Theorem rank_list_is_sorted (rt : dist) (rk : option Z) (ranks : option (list Z))
    (tp_degree dp_degree : option Z) (σ σ' : process) (pg : ProcessGroup) (a : attributes) :
  ProcessGroup_init rt rk ranks tp_degree dp_degree σ = (Ok pg, σ') →
  attrs pg = Some a →
  Sorted Z.le (_rank_list a)
  ∧ match ranks with
    | Some l => _rank_list a ≡ₚ l
    | None => _rank_list a = seqZ 0 (get_world_size rt)
    end.
Proof.
  intros Hrun Ha.
  destruct (ProcessGroup_init_inv _ _ _ _ _ _ _ _ _ Hrun Ha) as (_ & _ & _ & -> & _).
  destruct ranks as [l|]; cbn.
  - split; [apply (Sorted_merge_sort Z.le)|apply merge_sort_Permutation].
  - split; [apply Sorted_seqZ|done].
Qed.

Lemma rank_list_is_sorted_witness :
  Sorted Z.le (_rank_list two_by_two_attrs) ∧ _rank_list two_by_two_attrs ≡ₚ [3; 1; 0; 2].
Proof.
  apply (rank_list_is_sorted four_ranks (Some 1) (Some [3; 1; 0; 2]) (Some 2) (Some 2)
           fresh_process after_two_by_two two_by_two two_by_two_attrs).
  - exact two_by_two_run.
  - reflexivity.
Defined.

Lemma register_all_serve (b : string) (gs : list (list Z)) (σ : process) :
  register_all b gs σ = serve ((fun g => (Some g, b)) <$> gs) σ.
Proof. unfold register_all, serve. by rewrite foldl_fmap. Qed.

Lemma serve_grows (requests : list (option (list Z) * string)) (σ : process) :
  dict (PYTORCHPGDICT_ σ) ⊆ dict (PYTORCHPGDICT_ (serve requests σ))
  ∧ new_group_calls σ `prefix_of` new_group_calls (serve requests σ)
  ∧ (length (new_group_calls (serve requests σ))
     ≤ length (new_group_calls σ) + length requests)%nat.
Proof.
  induction requests as [|[rl b] reqs (IHd & IHc & IHn)] using rev_ind.
  - split; [done|]. split; [done|]. cbn. lia.
  - rewrite serve_snoc, length_app. cbn.
    destruct (get_state_cases rl b (serve reqs σ)) as [->|(l & -> & Hmiss & ->)].
    + split; [done|]. split; [done|]. lia.
    + cbn. split; [etrans; [exact IHd|]; by apply insert_subseteq|].
      split; [by apply prefix_app_r|]. rewrite length_app. cbn. lia.
Qed.

Lemma length_grid_rows (l : list Z) (tp dp : Z) : length (grid_rows l tp dp) = Z.to_nat dp.
Proof. unfold grid_rows, range. by rewrite length_fmap, length_seqZ. Qed.

Lemma length_grid_cols (l : list Z) (tp dp : Z) : length (grid_cols l tp dp) = Z.to_nat tp.
Proof. unfold grid_cols, range. by rewrite length_fmap, length_seqZ. Qed.

(** X6.  What a successful construction costs and leaves.  It calls
    [new_group] at most [dp_degree + tp_degree] times (degrees below zero
    counting as zero), after the calls made before; it keeps every entry the
    cache had; and afterwards every row and every column of the grid is
    cached under ["nccl"]. *)
Theorem construction_registers_the_grid (rt : dist) (rk : option Z) (ranks : option (list Z))
    (tp_degree dp_degree : option Z) (σ σ' : process) (pg : ProcessGroup) (a : attributes) :
  ProcessGroup_init rt rk ranks tp_degree dp_degree σ = (Ok pg, σ') →
  attrs pg = Some a →
  (length (new_group_calls σ')
   ≤ length (new_group_calls σ) + Z.to_nat (_dp_degree a) + Z.to_nat (_tp_degree a))%nat
  ∧ new_group_calls σ `prefix_of` new_group_calls σ'
  ∧ dict (PYTORCHPGDICT_ σ) ⊆ dict (PYTORCHPGDICT_ σ')
  ∧ (∀ i, 0 ≤ i < _dp_degree a →
       is_Some (dict (PYTORCHPGDICT_ σ')
                  !! ("nccl", grid_row (_rank_list a) (_tp_degree a) i)))
  ∧ (∀ j, 0 ≤ j < _tp_degree a →
       is_Some (dict (PYTORCHPGDICT_ σ')
                  !! ("nccl", grid_col (_rank_list a) (_tp_degree a) (_dp_degree a) j))).
Proof.
  intros Hrun Ha.
  destruct (ProcessGroup_init_inv _ _ _ _ _ _ _ _ _ Hrun Ha) as (Hi & Hres & _ & Hl & _).
  rewrite (ProcessGroup_init_resolved _ _ _ _ _ _ _ _ Hi Hres) in Hrun.
  injection Hrun as _ <-. rewrite <-Hl.
  set (groups := grid_rows (_rank_list a) (_tp_degree a) (_dp_degree a)
                 ++ grid_cols (_rank_list a) (_tp_degree a) (_dp_degree a)).
  destruct (serve_grows ((fun g => (Some g, "nccl")) <$> groups) σ) as (Hd & Hc & Hn).
  rewrite <-register_all_serve in Hd, Hc, Hn.
  rewrite length_fmap in Hn. unfold groups in Hn.
  rewrite length_app, length_grid_rows, length_grid_cols in Hn.
  fold groups in Hn. split; [lia|]. split; [done|]. split; [done|].
  split; intros k Hk; apply register_all_cached; unfold groups;
    apply elem_of_app; [left|right]; apply list_elem_of_fmap_2; by apply elem_of_seqZ.
Qed.

Lemma construction_registers_the_grid_witness :
  (length (new_group_calls after_two_by_two) ≤ length (new_group_calls fresh_process) + 2 + 2)%nat
  ∧ new_group_calls fresh_process `prefix_of` new_group_calls after_two_by_two
  ∧ dict (PYTORCHPGDICT_ fresh_process) ⊆ dict (PYTORCHPGDICT_ after_two_by_two)
  ∧ (∀ i, 0 ≤ i < 2 →
       is_Some (dict (PYTORCHPGDICT_ after_two_by_two)
                  !! ("nccl", grid_row [0; 1; 2; 3] 2 i)))
  ∧ (∀ j, 0 ≤ j < 2 →
       is_Some (dict (PYTORCHPGDICT_ after_two_by_two)
                  !! ("nccl", grid_col [0; 1; 2; 3] 2 2 j))).
Proof.
  apply (construction_registers_the_grid four_ranks (Some 1) (Some [3; 1; 0; 2])
           (Some 2) (Some 2) fresh_process after_two_by_two two_by_two two_by_two_attrs).
  - exact two_by_two_run.
  - reflexivity.
Defined.

(** X7.  Constructing again is free.  After a construction with an
    initialized runtime, a second construction over the same [ranks] and
    degrees, for whatever rank, finds every group in the cache: it succeeds
    and leaves the process exactly as the first one left it. *)
Theorem second_construction_creates_no_group (rt1 rt2 : dist) (rank1 rank2 : option Z)
    (ranks : option (list Z)) (tp_degree dp_degree : option Z) (σ σ1 : process)
    (pg1 : ProcessGroup) :
  is_initialized rt1 = true →
  is_initialized rt2 = true →
  get_world_size rt1 = get_world_size rt2 →
  ProcessGroup_init rt1 rank1 ranks tp_degree dp_degree σ = (Ok pg1, σ1) →
  ∃ pg2, ProcessGroup_init rt2 rank2 ranks tp_degree dp_degree σ1 = (Ok pg2, σ1)
         ∧ is_init pg2 = true.
Proof.
  intros Hi1 Hi2 Hws Hrun.
  assert (world_ranks rt1 ranks = world_ranks rt2 ranks) as Hl.
  { unfold world_ranks. by rewrite Hws. }
  destruct (resolve_degrees (Z.of_nat (length (world_ranks rt1 ranks))) tp_degree dp_degree)
    as [[dp tp]|e] eqn:Hres.
  2:{ by rewrite (ProcessGroup_init_raise _ _ _ _ _ e) in Hrun. }
  rewrite (ProcessGroup_init_resolved _ _ _ _ _ dp tp) in Hrun by done.
  injection Hrun as _ <-. rewrite Hl in Hres.
  exists (constructed rt2 rank2 ranks dp tp).
  rewrite (ProcessGroup_init_resolved rt2 _ _ _ _ dp tp) by done.
  split; [|done]. f_equal. rewrite Hl. apply register_all_hit.
  intros g Hg. by apply register_all_cached.
Qed.

Lemma second_construction_creates_no_group_witness :
  ∃ pg2, ProcessGroup_init four_ranks_seen_from_3 None (Some [3; 1; 0; 2]) (Some 2) (Some 2)
           after_two_by_two = (Ok pg2, after_two_by_two)
         ∧ is_init pg2 = true.
Proof.
  apply (second_construction_creates_no_group four_ranks four_ranks_seen_from_3
           (Some 1) None (Some [3; 1; 0; 2]) (Some 2) (Some 2) fresh_process
           after_two_by_two two_by_two).
  - reflexivity.
  - reflexivity.
  - reflexivity.
  - exact two_by_two_run.
Defined.

Lemma ProcessGroup_init_degrees (rt : dist) (rk : option Z) (ranks : option (list Z))
    (tp tp' dp dp' : option Z) (σ : process) :
  resolve_degrees (Z.of_nat (length (world_ranks rt ranks))) tp dp
    = resolve_degrees (Z.of_nat (length (world_ranks rt ranks))) tp' dp' →
  ProcessGroup_init rt rk ranks tp dp σ = ProcessGroup_init rt rk ranks tp' dp' σ.
Proof. intros Hres. unfold ProcessGroup_init. by rewrite Hres. Qed.

(** X8.  The degree tests of [__init__] use Python's truth value, for which
    [0] is false like [None]: next to a degree that is not [0], a degree
    passed as [0] is resolved exactly as if it had been omitted, whatever
    the world size. *)
Theorem zero_degree_is_resolved_as_omitted (rt : dist) (rk : option Z)
    (ranks : option (list Z)) (d : Z) (σ : process) :
  d ≠ 0 →
  ProcessGroup_init rt rk ranks (Some d) (Some 0) σ
    = ProcessGroup_init rt rk ranks (Some d) None σ
  ∧ ProcessGroup_init rt rk ranks (Some 0) (Some d) σ
    = ProcessGroup_init rt rk ranks None (Some d) σ.
Proof.
  intros Hd. split; apply ProcessGroup_init_degrees;
    unfold resolve_degrees, truthy; cbn; by eqb_cases.
Qed.

Lemma zero_degree_is_resolved_as_omitted_witness :
  ProcessGroup_init four_ranks None None (Some 2) (Some 0) fresh_process
    = ProcessGroup_init four_ranks None None (Some 2) None fresh_process
  ∧ ProcessGroup_init four_ranks None None (Some 0) (Some 2) fresh_process
    = ProcessGroup_init four_ranks None None None (Some 2) fresh_process.
Proof.
  apply (zero_degree_is_resolved_as_omitted four_ranks None None 2 fresh_process). lia.
Defined.

(** With a world of four, [tp_degree = 2] and [dp_degree = 0] give a 2 x 2
    grid although the product of the degrees passed is not four. *)
Example zero_dp_degree_constructs :
  (ProcessGroup_init four_ranks (Some 1) None (Some 2) (Some 0) fresh_process).1
    = Ok two_by_two.
Proof. vm_compute. reflexivity. Qed.

(** ** Accessors of a constructed object *)

Lemma omap_total_lookup {A B} (f : A → option B) (xs : list A) (k : nat) :
  (∀ x, x ∈ xs → is_Some (f x)) → omap f xs !! k = xs !! k ≫= f.
Proof.
  revert k. induction xs as [|x xs IH]; intros k Hall; [done|].
  destruct (Hall x) as [y Hy]; [by constructor|].
  cbn. rewrite Hy. destruct k as [|k]; cbn; [done|].
  apply IH. intros z Hz. apply Hall. by constructor.
Qed.

Lemma omap_total_length {A B} (f : A → option B) (xs : list A) :
  (∀ x, x ∈ xs → is_Some (f x)) → length (omap f xs) = length xs.
Proof.
  induction xs as [|x xs IH]; intros Hall; [done|].
  destruct (Hall x) as [y Hy]; [by constructor|].
  cbn. rewrite Hy. cbn. f_equal. apply IH. intros z Hz. apply Hall. by constructor.
Qed.

Lemma grid_col_total (l : list Z) (tp dp j : Z) :
  0 ≤ j < tp → dp * tp ≤ Z.of_nat (length l) →
  ∀ i, i ∈ range dp → is_Some (l !! Z.to_nat (i * tp + j)).
Proof.
  intros Hj Hlen i Hi%elem_of_seqZ. apply lookup_lt_is_Some_2. nia.
Qed.

Lemma length_grid_row (l : list Z) (tp i : Z) :
  0 ≤ i → 0 ≤ tp → i * tp + tp ≤ Z.of_nat (length l) →
  Z.of_nat (length (grid_row l tp i)) = tp.
Proof.
  intros Hi Htp Hlen. unfold grid_row. rewrite length_take, length_drop. nia.
Qed.

Lemma length_grid_col (l : list Z) (tp dp j : Z) :
  0 ≤ j < tp → 0 ≤ dp → dp * tp ≤ Z.of_nat (length l) →
  Z.of_nat (length (grid_col l tp dp j)) = dp.
Proof.
  intros Hj Hdp Hlen. unfold grid_col.
  rewrite omap_total_length by (by apply grid_col_total).
  unfold range. rewrite length_seqZ. lia.
Qed.

Lemma lookup_grid_row (l : list Z) (tp i q : Z) :
  0 ≤ i → 0 ≤ q < tp →
  grid_row l tp i !! Z.to_nat q = l !! Z.to_nat (i * tp + q).
Proof.
  intros Hi Hq. unfold grid_row.
  rewrite lookup_take_lt, lookup_drop by lia. f_equal. nia.
Qed.

Lemma lookup_grid_col (l : list Z) (tp dp j i : Z) :
  0 ≤ j < tp → dp * tp ≤ Z.of_nat (length l) → 0 ≤ i < dp →
  grid_col l tp dp j !! Z.to_nat i = l !! Z.to_nat (i * tp + j).
Proof.
  intros Hj Hlen Hi. unfold grid_col.
  rewrite omap_total_lookup by (by apply grid_col_total).
  unfold range. rewrite lookup_seqZ_lt, Z2Nat.id, Z.add_0_l by lia. done.
Qed.

(** A rank of the world is recorded with a row and a column of the grid. *)
Lemma member_lists_set (l : list Z) (tp dp r : Z) :
  0 < tp → dp * tp = Z.of_nat (length l) → r ∈ l →
  ∃ i j, 0 ≤ i < dp ∧ 0 ≤ j < tp
         ∧ pick r (grid_rows l tp dp) = Some (grid_row l tp i) ∧ r ∈ grid_row l tp i
         ∧ pick r (grid_cols l tp dp) = Some (grid_col l tp dp j) ∧ r ∈ grid_col l tp dp j.
Proof.
  intros Htp Hprod (p & Hp)%list_elem_of_lookup.
  destruct (in_row_of_position l tp dp Htp Hprod p r Hp) as [Hi0 Hri0].
  destruct (in_col_of_position l tp dp Htp Hprod p r Hp) as [Hj0 Hrj0].
  destruct (pick r (grid_rows l tp dp)) as [row|] eqn:Hpr.
  2:{ rewrite pick_None in Hpr. destruct (Hpr (grid_row l tp (Z.of_nat p `div` tp))); [|done].
      apply list_elem_of_fmap_2. by apply elem_of_seqZ. }
  destruct (pick r (grid_cols l tp dp)) as [col|] eqn:Hpc.
  2:{ rewrite pick_None in Hpc.
      destruct (Hpc (grid_col l tp dp (Z.of_nat p `mod` tp))); [|done].
      apply list_elem_of_fmap_2. by apply elem_of_seqZ. }
  apply pick_Some in Hpr as [(i & -> & Hi%elem_of_seqZ)%list_elem_of_fmap Hri].
  apply pick_Some in Hpc as [(j & -> & Hj%elem_of_seqZ)%list_elem_of_fmap Hrj].
  exists i, j. repeat split; done || lia.
Qed.

(** What the attributes of a constructed object are, in one place. *)
Lemma constructed_attributes (rt : dist) (rk : option Z) (ranks : option (list Z))
    (tp_degree dp_degree : option Z) (σ σ' : process) (pg : ProcessGroup) (a : attributes) :
  ProcessGroup_init rt rk ranks tp_degree dp_degree σ = (Ok pg, σ') →
  attrs pg = Some a →
  _dp_degree a * _tp_degree a = Z.of_nat (length (_rank_list a))
  ∧ _tp_rank_list a = pick (_rank a) (grid_rows (_rank_list a) (_tp_degree a) (_dp_degree a))
  ∧ _dp_rank_list a = pick (_rank a) (grid_cols (_rank_list a) (_tp_degree a) (_dp_degree a))
  ∧ _has_cpu_groups a = false
  ∧ σ' = register_all "nccl"
           (grid_rows (_rank_list a) (_tp_degree a) (_dp_degree a)
            ++ grid_cols (_rank_list a) (_tp_degree a) (_dp_degree a)) σ.
Proof.
  intros Hrun Ha.
  destruct (ProcessGroup_init_inv _ _ _ _ _ _ _ _ _ Hrun Ha)
    as (Hi & Hres & _ & Hl & _ & Htpl & Hdpl & Hflag).
  pose proof (resolve_degrees_product _ _ _ _ _ Hres) as Hprod.
  rewrite (ProcessGroup_init_resolved _ _ _ _ _ _ _ _ Hi Hres) in Hrun.
  injection Hrun as _ <-. rewrite <-Hl. by rewrite <-Hl in Hprod.
Qed.

(** X9.  On a constructed object with a positive [tp_degree] whose rank is
    one of the ranks of the world, [tp_world_size()] is [tp_degree] and
    [dp_world_size()] is [dp_degree]. *)
Theorem group_sizes_are_the_degrees (rt : dist) (rk : option Z) (ranks : option (list Z))
    (tp_degree dp_degree : option Z) (σ σ' : process) (pg : ProcessGroup) (a : attributes) :
  ProcessGroup_init rt rk ranks tp_degree dp_degree σ = (Ok pg, σ') →
  attrs pg = Some a →
  0 < _tp_degree a →
  _rank a ∈ _rank_list a →
  tp_world_size pg = Ok (_tp_degree a) ∧ dp_world_size pg = Ok (_dp_degree a).
Proof.
  intros Hrun Ha Htp Hin.
  destruct (constructed_attributes _ _ _ _ _ _ _ _ _ Hrun Ha) as (Hprod & Htpl & Hdpl & _).
  destruct (member_lists_set _ _ _ _ Htp Hprod Hin)
    as (i & j & Hi & Hj & Hrow & _ & Hcol & _).
  unfold tp_world_size, dp_world_size, getattr. rewrite Ha. cbn.
  rewrite Htpl, Hdpl, Hrow, Hcol. cbn.
  rewrite length_grid_row, length_grid_col by nia. done.
Qed.

Lemma group_sizes_are_the_degrees_witness :
  tp_world_size two_by_two = Ok 2 ∧ dp_world_size two_by_two = Ok 2.
Proof.
  apply (group_sizes_are_the_degrees four_ranks (Some 1) (Some [3; 1; 0; 2]) (Some 2) (Some 2)
           fresh_process after_two_by_two two_by_two two_by_two_attrs).
  - exact two_by_two_run.
  - reflexivity.
  - reflexivity.
  - compute_done.
Defined.

(** X10.  In the default world ([ranks] not passed, so that the rank list
    is [0 .. world_size - 1]) with a positive [tp_degree], the local ranks
    are positions: the object's rank sits at index [tp_local_rank()] of its
    row and at index [dp_local_rank()] of its column, and it is
    [dp_local_rank() * tp_degree + tp_local_rank()]. *)
Theorem local_ranks_index_the_default_world (rt : dist) (rk : option Z)
    (tp_degree dp_degree : option Z) (σ σ' : process) (pg : ProcessGroup) (a : attributes) :
  ProcessGroup_init rt rk None tp_degree dp_degree σ = (Ok pg, σ') →
  attrs pg = Some a →
  0 < _tp_degree a →
  0 ≤ _rank a < get_world_size rt →
  ∃ row col t d,
    tp_rank_list pg = Ok (Some row)
    ∧ dp_rank_list pg = Ok (Some col)
    ∧ tp_local_rank pg = Ok t
    ∧ dp_local_rank pg = Ok d
    ∧ getitem row t = Ok (_rank a)
    ∧ getitem col d = Ok (_rank a)
    ∧ 0 ≤ t < _tp_degree a
    ∧ 0 ≤ d < _dp_degree a
    ∧ _rank a = d * _tp_degree a + t.
Proof.
  intros Hrun Ha Htp Hr.
  destruct (constructed_attributes _ _ _ _ _ _ _ _ _ Hrun Ha) as (Hprod & Htpl & Hdpl & _).
  destruct (ProcessGroup_init_inv _ _ _ _ _ _ _ _ _ Hrun Ha) as (_ & _ & _ & Hl & _).
  cbn in Hl. unfold range in Hl.
  set (l := _rank_list a) in *. set (tp := _tp_degree a) in *.
  set (dp := _dp_degree a) in *. set (r := _rank a) in *.
  assert (Z.of_nat (length l) = get_world_size rt) as Hlen.
  { rewrite Hl, length_seqZ. lia. }
  assert (∀ p : nat, ∀ x, l !! p = Some x → x = Z.of_nat p) as Hpos.
  { intros p x. rewrite Hl. intros [-> _]%lookup_seqZ. lia. }
  assert (l !! Z.to_nat r = Some r) as Hlr.
  { rewrite Hl, lookup_seqZ_lt by lia. f_equal. lia. }
  assert (r ∈ l) as Hin by (by eapply list_elem_of_lookup_2).
  destruct (member_lists_set l tp dp r Htp Hprod Hin)
    as (i & j & Hi & Hj & Hrow & Hri & Hcol & Hrj).
  apply elem_of_grid_row in Hri as (p & Hp & Hpi); [|lia|lia].
  apply Hpos in Hp. rewrite <-Hp in Hpi.
  apply elem_of_grid_col in Hrj as (i' & Hi' & Hp').
  apply Hpos in Hp'. rewrite Z2Nat.id in Hp' by nia.
  assert (i' = i) as -> by nia.
  pose proof (Z.mod_pos_bound r tp Htp) as Hmod.
  assert (r `mod` tp = j) as Ht.
  { symmetry. apply (Z.mod_unique_pos r tp i j); lia. }
  assert (r `div` tp = i) as Hd.
  { symmetry. apply (Z.div_unique_pos r tp i j); lia. }
  exists (grid_row l tp i), (grid_col l tp dp j), j, i.
  unfold tp_rank_list, dp_rank_list, tp_local_rank, dp_local_rank, getattr, py_mod,
    py_floordiv.
  rewrite Ha. cbn. fold l tp dp r. rewrite Htpl, Hdpl, Hrow, Hcol.
  destruct (Z.eqb_spec tp 0) as [?|_]; [lia|]. rewrite Ht, Hd.
  repeat split; try done; try lia.
  - apply getitem_Z; [lia|]. rewrite lookup_grid_row by lia.
    by replace (i * tp + j) with r by lia.
  - apply getitem_Z; [lia|]. rewrite lookup_grid_col by lia.
    by replace (i * tp + j) with r by lia.
Qed.

Lemma local_ranks_index_the_default_world_witness :
  ∃ row col t d,
    tp_rank_list two_by_two = Ok (Some row)
    ∧ dp_rank_list two_by_two = Ok (Some col)
    ∧ tp_local_rank two_by_two = Ok t
    ∧ dp_local_rank two_by_two = Ok d
    ∧ getitem row t = Ok 1
    ∧ getitem col d = Ok 1
    ∧ 0 ≤ t < 2
    ∧ 0 ≤ d < 2
    ∧ 1 = d * 2 + t.
Proof.
  apply (local_ranks_index_the_default_world four_ranks None (Some 2) (Some 2)
           fresh_process after_two_by_two two_by_two two_by_two_attrs).
  - vm_compute. reflexivity.
  - reflexivity.
  - reflexivity.
  - cbn. lia.
Defined.

(** With a rank list of its own the local ranks are still computed from the
    value of the rank: in the world [[1; 2; 3; 4]] with rows of two, rank 1
    is first in its row [[1; 2]] but its [tp_local_rank()] is 1. *)
Example local_rank_is_not_a_position :
  let pg := constructed four_ranks (Some 1) (Some [1; 2; 3; 4]) 2 2 in
  (ProcessGroup_init four_ranks (Some 1) (Some [1; 2; 3; 4]) (Some 2) (Some 2)
     fresh_process).1 = Ok pg
  ∧ tp_rank_list pg = Ok (Some [1; 2])
  ∧ tp_local_rank pg = Ok 1
  ∧ getitem [1; 2] 1 = Ok 2.
Proof. repeat split; vm_compute; reflexivity. Qed.

Lemma register_all_wf (b : string) (gs : list (list Z)) (σ : process) :
  cache_wf σ → cache_wf (register_all b gs σ).
Proof.
  revert σ. induction gs as [|g gs IH]; intros σ Hwf; [done|].
  rewrite register_all_cons. by apply IH, get_wf.
Qed.

Lemma get_cached_weaken (l : list Z) (b : string) (σ σ' : process) (h : GroupHandle) :
  dict (PYTORCHPGDICT_ σ) !! (b, l) = Some h →
  dict (PYTORCHPGDICT_ σ) ⊆ dict (PYTORCHPGDICT_ σ') →
  get (Some l) b σ' = (Ok h, σ').
Proof. intros Hh Hsub. apply get_hit. by eapply lookup_weaken. Qed.

(** X11.  After a construction the group accessors create nothing.  For a
    rank of the world (and a positive [tp_degree]), in the process state the
    construction left or any state whose cache extends it,
    [tp_process_group()] and [dp_process_group()] return the handles that
    the construction cached for the object's row and column under ["nccl"],
    and leave the process as it is. *)
Theorem group_accessors_reuse_the_groups (rt : dist) (rk : option Z)
    (ranks : option (list Z)) (tp_degree dp_degree : option Z) (σ σ1 σ2 : process)
    (pg : ProcessGroup) (a : attributes) :
  ProcessGroup_init rt rk ranks tp_degree dp_degree σ = (Ok pg, σ1) →
  attrs pg = Some a →
  0 < _tp_degree a →
  _rank a ∈ _rank_list a →
  dict (PYTORCHPGDICT_ σ1) ⊆ dict (PYTORCHPGDICT_ σ2) →
  ∃ row col h h',
    _tp_rank_list a = Some row
    ∧ _dp_rank_list a = Some col
    ∧ dict (PYTORCHPGDICT_ σ1) !! ("nccl", row) = Some h
    ∧ dict (PYTORCHPGDICT_ σ1) !! ("nccl", col) = Some h'
    ∧ tp_process_group pg σ2 = (Ok h, σ2)
    ∧ dp_process_group pg σ2 = (Ok h', σ2).
Proof.
  intros Hrun Ha Htp Hin Hsub.
  destruct (constructed_attributes _ _ _ _ _ _ _ _ _ Hrun Ha)
    as (Hprod & Htpl & Hdpl & _ & Hσ1).
  destruct (member_lists_set _ _ _ _ Htp Hprod Hin)
    as (i & j & Hi & Hj & Hrow & _ & Hcol & _).
  set (groups := grid_rows (_rank_list a) (_tp_degree a) (_dp_degree a)
                 ++ grid_cols (_rank_list a) (_tp_degree a) (_dp_degree a)) in *.
  destruct (register_all_cached "nccl" groups σ
              (grid_row (_rank_list a) (_tp_degree a) i)) as [h Hh].
  { apply elem_of_app. left. apply list_elem_of_fmap_2. by apply elem_of_seqZ. }
  destruct (register_all_cached "nccl" groups σ
              (grid_col (_rank_list a) (_tp_degree a) (_dp_degree a) j)) as [h' Hh'].
  { apply elem_of_app. right. apply list_elem_of_fmap_2. by apply elem_of_seqZ. }
  rewrite <-Hσ1 in Hh, Hh'.
  exists (grid_row (_rank_list a) (_tp_degree a) i),
         (grid_col (_rank_list a) (_tp_degree a) (_dp_degree a) j), h, h'.
  split; [by rewrite Htpl|]. split; [by rewrite Hdpl|]. split; [done|]. split; [done|].
  unfold tp_process_group, dp_process_group, getattr, mbind, lift. rewrite Ha.
  rewrite Htpl, Hdpl, Hrow, Hcol.
  by rewrite (get_cached_weaken _ _ σ1 σ2 h), (get_cached_weaken _ _ σ1 σ2 h').
Qed.

Lemma group_accessors_reuse_the_groups_witness :
  ∃ row col h h',
    _tp_rank_list two_by_two_attrs = Some row
    ∧ _dp_rank_list two_by_two_attrs = Some col
    ∧ dict (PYTORCHPGDICT_ after_two_by_two) !! ("nccl", row) = Some h
    ∧ dict (PYTORCHPGDICT_ after_two_by_two) !! ("nccl", col) = Some h'
    ∧ tp_process_group two_by_two after_two_by_two_cpu = (Ok h, after_two_by_two_cpu)
    ∧ dp_process_group two_by_two after_two_by_two_cpu = (Ok h', after_two_by_two_cpu).
Proof.
  apply (group_accessors_reuse_the_groups four_ranks (Some 1) (Some [3; 1; 0; 2])
           (Some 2) (Some 2) fresh_process after_two_by_two after_two_by_two_cpu
           two_by_two two_by_two_attrs).
  - exact two_by_two_run.
  - reflexivity.
  - reflexivity.
  - compute_done.
  - apply map_subseteq_spec. intros k h Hk.
    unfold after_two_by_two_cpu.
    rewrite (set_cpu_groups_first two_by_two two_by_two_attrs) by reflexivity.
    by apply register_all_mono.
Defined.

Lemma register_all_consistent (b : string) (gs : list (list Z)) (σ : process) :
  cache_consistent σ → cache_consistent (register_all b gs σ).
Proof.
  revert σ. induction gs as [|g gs IH]; intros σ Hσ; [done|].
  rewrite register_all_cons. by apply IH, (get_consistent (Some g)).
Qed.

(** X12.  The CPU groups come from calls of their own.  Before
    [set_cpu_groups()] the CPU group accessors of a constructed object raise
    on their assertion.  After it (for a rank of the world and a positive
    [tp_degree], starting from a process whose cache only [get] has
    filled), all four group accessors return a handle without touching the
    process.  On the process of rank [get_rank], the object of the CPU row
    group is that of the row group exactly when the process is outside the
    row, where both are [NON_GROUP_MEMBER], and likewise for the column;
    when the object was built for the rank of the process itself, the CPU
    groups are objects of their own. *)
Theorem cpu_groups_are_separate_groups (rt : dist) (rk : option Z)
    (ranks : option (list Z)) (tp_degree dp_degree : option Z) (σ σ1 σ2 : process)
    (pg pg' : ProcessGroup) (a : attributes) :
  cache_consistent σ →
  ProcessGroup_init rt rk ranks tp_degree dp_degree σ = (Ok pg, σ1) →
  attrs pg = Some a →
  0 < _tp_degree a →
  _rank a ∈ _rank_list a →
  set_cpu_groups pg σ1 = (Ok pg', σ2) →
  (∀ σ', cpu_tp_process_group pg σ' = (Raise AssertionError, σ')
         ∧ cpu_dp_process_group pg σ' = (Raise AssertionError, σ'))
  ∧ ∃ row col h h' c c' o o' oc oc',
      _tp_rank_list a = Some row
      ∧ _dp_rank_list a = Some col
      ∧ tp_process_group pg' σ2 = (Ok h, σ2)
      ∧ dp_process_group pg' σ2 = (Ok h', σ2)
      ∧ cpu_tp_process_group pg' σ2 = (Ok c, σ2)
      ∧ cpu_dp_process_group pg' σ2 = (Ok c', σ2)
      ∧ returned_object (get_rank rt) σ2 h = Some o
      ∧ returned_object (get_rank rt) σ2 h' = Some o'
      ∧ returned_object (get_rank rt) σ2 c = Some oc
      ∧ returned_object (get_rank rt) σ2 c' = Some oc'
      ∧ (o = oc ↔ get_rank rt ∉ row)
      ∧ (o' = oc' ↔ get_rank rt ∉ col)
      ∧ (_rank a = get_rank rt → o ≠ oc ∧ o' ≠ oc').
Proof.
  intros Hcons Hrun Ha Htp Hin Hset.
  destruct (constructed_attributes _ _ _ _ _ _ _ _ _ Hrun Ha)
    as (Hprod & Htpl & Hdpl & Hflag & Hσ1).
  split.
  { intros σ'. unfold cpu_tp_process_group, cpu_dp_process_group, getattr, mbind, lift.
    by rewrite Ha, Hflag. }
  destruct (member_lists_set _ _ _ _ Htp Hprod Hin)
    as (i & j & Hi & Hj & Hrow & Hinrow & Hcol & Hincol).
  rewrite (set_cpu_groups_first pg a σ1 Ha Hflag Hprod) in Hset.
  injection Hset as <- <-.
  set (l := _rank_list a) in *. set (tp := _tp_degree a) in *. set (dp := _dp_degree a) in *.
  set (groups := grid_rows l tp dp ++ grid_cols l tp dp) in *.
  assert (grid_row l tp i ∈ groups) as Hrin.
  { apply elem_of_app. left. apply list_elem_of_fmap_2. by apply elem_of_seqZ. }
  assert (grid_col l tp dp j ∈ groups) as Hcin.
  { apply elem_of_app. right. apply list_elem_of_fmap_2. by apply elem_of_seqZ. }
  destruct (register_all_cached "nccl" groups σ _ Hrin) as [h Hh].
  destruct (register_all_cached "nccl" groups σ _ Hcin) as [h' Hh'].
  rewrite <-Hσ1 in Hh, Hh'.
  apply (register_all_mono "gloo" groups) in Hh, Hh'.
  destruct (register_all_cached "gloo" groups σ1 _ Hrin) as [c Hc].
  destruct (register_all_cached "gloo" groups σ1 _ Hcin) as [c' Hc'].
  assert (cache_consistent (register_all "gloo" groups σ1)) as Hcons2.
  { apply register_all_consistent. rewrite Hσ1. by apply register_all_consistent. }
  destruct (cached_objects (get_rank rt) _ _ _ _ _ _ _ Hcons2 Hh Hc)
    as (o & oc & Ho & Hoc & Hrowiff).
  destruct (cached_objects (get_rank rt) _ _ _ _ _ _ _ Hcons2 Hh' Hc')
    as (o' & oc' & Ho' & Hoc' & Hcoliff).
  exists (grid_row l tp i), (grid_col l tp dp j), h, h', c, c', o, o', oc, oc'.
  unfold tp_process_group, dp_process_group, cpu_tp_process_group, cpu_dp_process_group,
    getattr, mbind, lift, py_assert, mret.
  cbn. fold l tp dp. rewrite Htpl, Hdpl. fold l tp dp. rewrite Hrow, Hcol.
  rewrite !(get_hit _ _ _ _ Hh), !(get_hit _ _ _ _ Hh'),
    !(get_hit _ _ _ _ Hc), !(get_hit _ _ _ _ Hc').
  assert (o = oc ↔ get_rank rt ∉ grid_row l tp i) as Hrow'.
  { rewrite Hrowiff. split; [intros [[[=] _]|[? _]]; done|auto]. }
  assert (o' = oc' ↔ get_rank rt ∉ grid_col l tp dp j) as Hcol'.
  { rewrite Hcoliff. split; [intros [[[=] _]|[? _]]; done|auto]. }
  do 12 (split; [done || tauto|]).
  intros Hr. split; intros E; [apply Hrow' in E|apply Hcol' in E]; apply E; by rewrite <-Hr.
Qed.

Lemma cpu_groups_are_separate_groups_witness :
  (∀ σ', cpu_tp_process_group two_by_two σ' = (Raise AssertionError, σ')
         ∧ cpu_dp_process_group two_by_two σ' = (Raise AssertionError, σ'))
  ∧ ∃ row col h h' c c' o o' oc oc',
      _tp_rank_list two_by_two_attrs = Some row
      ∧ _dp_rank_list two_by_two_attrs = Some col
      ∧ tp_process_group two_by_two_cpu after_two_by_two_cpu = (Ok h, after_two_by_two_cpu)
      ∧ dp_process_group two_by_two_cpu after_two_by_two_cpu = (Ok h', after_two_by_two_cpu)
      ∧ cpu_tp_process_group two_by_two_cpu after_two_by_two_cpu
        = (Ok c, after_two_by_two_cpu)
      ∧ cpu_dp_process_group two_by_two_cpu after_two_by_two_cpu
        = (Ok c', after_two_by_two_cpu)
      ∧ returned_object (get_rank four_ranks) after_two_by_two_cpu h = Some o
      ∧ returned_object (get_rank four_ranks) after_two_by_two_cpu h' = Some o'
      ∧ returned_object (get_rank four_ranks) after_two_by_two_cpu c = Some oc
      ∧ returned_object (get_rank four_ranks) after_two_by_two_cpu c' = Some oc'
      ∧ (o = oc ↔ get_rank four_ranks ∉ row)
      ∧ (o' = oc' ↔ get_rank four_ranks ∉ col)
      ∧ (_rank two_by_two_attrs = get_rank four_ranks → o ≠ oc ∧ o' ≠ oc').
Proof.
  apply (cpu_groups_are_separate_groups four_ranks (Some 1) (Some [3; 1; 0; 2])
           (Some 2) (Some 2) fresh_process after_two_by_two after_two_by_two_cpu
           two_by_two two_by_two_cpu two_by_two_attrs).
  - apply cache_consistent_fresh.
  - exact two_by_two_run.
  - reflexivity.
  - reflexivity.
  - compute_done.
  - vm_compute. reflexivity.
Defined.

(** The object built on rank [1] for rank [3]: its row is [[2; 3]], the
    process is outside it, and the row group and the CPU row group are both
    [NON_GROUP_MEMBER]. *)
Example cpu_group_of_another_rank :
  returned_object (get_rank four_ranks) after_two_by_two_cpu 1%nat = Some NON_GROUP_MEMBER
  ∧ returned_object (get_rank four_ranks) after_two_by_two_cpu 5%nat = Some NON_GROUP_MEMBER
  ∧ new_group_calls after_two_by_two_cpu !! 1%nat = Some ([2; 3], "nccl")
  ∧ new_group_calls after_two_by_two_cpu !! 5%nat = Some ([2; 3], "gloo")
  ∧ dict (PYTORCHPGDICT_ after_two_by_two_cpu) !! ("nccl", [2; 3]) = Some 1%nat
  ∧ dict (PYTORCHPGDICT_ after_two_by_two_cpu) !! ("gloo", [2; 3]) = Some 5%nat.
Proof. repeat split; vm_compute; reflexivity. Qed.

(** X13.  Over distinct ranks and with a positive [tp_degree], the row and
    the column recorded in a constructed object have exactly one rank in
    common, the object's own. *)
Theorem row_and_column_meet_in_self (rt : dist) (rk : option Z) (ranks : option (list Z))
    (tp_degree dp_degree : option Z) (σ σ' : process) (pg : ProcessGroup) (a : attributes)
    (row col : list Z) (x : Z) :
  ProcessGroup_init rt rk ranks tp_degree dp_degree σ = (Ok pg, σ') →
  attrs pg = Some a →
  0 < _tp_degree a →
  NoDup (_rank_list a) →
  _tp_rank_list a = Some row →
  _dp_rank_list a = Some col →
  x ∈ row ∧ x ∈ col ↔ x = _rank a.
Proof.
  intros Hrun Ha Htp Hnd Hrow Hcol.
  destruct (constructed_attributes _ _ _ _ _ _ _ _ _ Hrun Ha) as (Hprod & Htpl & Hdpl & _).
  set (l := _rank_list a) in *. set (tp := _tp_degree a) in *. set (dp := _dp_degree a) in *.
  rewrite Hrow in Htpl. rewrite Hcol in Hdpl. symmetry in Htpl, Hdpl.
  apply pick_Some in Htpl as [(i & -> & Hi%elem_of_seqZ)%list_elem_of_fmap Hri].
  apply pick_Some in Hdpl as [(j & -> & Hj%elem_of_seqZ)%list_elem_of_fmap Hrj].
  split; [|by intros ->].
  intros [Hxi Hxj].
  assert (∀ y, y ∈ grid_row l tp i → y ∈ grid_col l tp dp j →
               l !! Z.to_nat (i * tp + j) = Some y) as Hmeet.
  { intros y (p & Hp & Hpi)%elem_of_grid_row (i' & Hi' & Hp')%elem_of_grid_col; [|lia|lia].
    assert (p = Z.to_nat (i' * tp + j)) as Hpp by (by eapply NoDup_lookup).
    assert (Z.of_nat p = i' * tp + j) as Hpz by nia.
    assert (i < i' + 1) by (apply (Z.mul_lt_mono_pos_r tp); lia).
    assert (i' < i + 1) by (apply (Z.mul_lt_mono_pos_r tp); lia).
    by assert (i' = i) as -> by lia. }
  pose proof (Hmeet x Hxi Hxj) as Hx. pose proof (Hmeet _ Hri Hrj) as Hr.
  congruence.
Qed.

Lemma row_and_column_meet_in_self_witness :
  0 ∈ [0; 1] ∧ 0 ∈ [1; 3] ↔ 0 = 1.
Proof.
  apply (row_and_column_meet_in_self four_ranks (Some 1) (Some [3; 1; 0; 2])
           (Some 2) (Some 2) fresh_process after_two_by_two two_by_two two_by_two_attrs
           [0; 1] [1; 3] 0).
  - exact two_by_two_run.
  - reflexivity.
  - reflexivity.
  - compute_done.
  - reflexivity.
  - reflexivity.
Defined.

(** ** Equality of objects *)

Lemma ProcessGroup_eq_attrs (pg pg' : ProcessGroup) (a a' : attributes) :
  attrs pg = Some a → attrs pg' = Some a' →
  ProcessGroup_eq pg (a_ProcessGroup pg') = Ok (bool_decide (same_topology a a')).
Proof.
  intros Ha Ha'. unfold ProcessGroup_eq, getattr, same_topology. rewrite Ha, Ha'. cbn.
  repeat (case_bool_decide; cbn; [|rewrite bool_decide_eq_false_2; [done|tauto]]).
  by rewrite bool_decide_eq_true_2.
Qed.

(** X14.  Two constructions over the same world, [ranks] and degrees, in
    whatever process states, that both return an object: [__eq__] on the two
    objects is [True] when they were built for the same rank and [False]
    when they were built for different ranks. *)
Theorem constructions_equal_iff_same_rank (rt1 rt2 : dist) (rank1 rank2 : option Z)
    (ranks : option (list Z)) (tp_degree dp_degree : option Z) (σ σ' σ1 σ1' : process)
    (pg1 pg2 : ProcessGroup) :
  is_initialized rt1 = true →
  is_initialized rt2 = true →
  get_world_size rt1 = get_world_size rt2 →
  ProcessGroup_init rt1 rank1 ranks tp_degree dp_degree σ = (Ok pg1, σ1) →
  ProcessGroup_init rt2 rank2 ranks tp_degree dp_degree σ' = (Ok pg2, σ1') →
  ProcessGroup_eq pg1 (a_ProcessGroup pg2)
    = Ok (bool_decide (self_rank rt1 rank1 = self_rank rt2 rank2)).
Proof.
  intros Hi1 Hi2 Hws Hrun1 Hrun2.
  assert (world_ranks rt1 ranks = world_ranks rt2 ranks) as Hl.
  { unfold world_ranks. by rewrite Hws. }
  destruct (resolve_degrees (Z.of_nat (length (world_ranks rt1 ranks))) tp_degree dp_degree)
    as [[dp tp]|e] eqn:Hres.
  2:{ by rewrite (ProcessGroup_init_raise _ _ _ _ _ e) in Hrun1. }
  rewrite (ProcessGroup_init_resolved _ _ _ _ _ dp tp) in Hrun1 by done.
  rewrite Hl in Hres.
  rewrite (ProcessGroup_init_resolved _ _ _ _ _ dp tp) in Hrun2 by done.
  injection Hrun1 as <- _. injection Hrun2 as <- _.
  erewrite ProcessGroup_eq_attrs by reflexivity. f_equal.
  unfold same_topology. cbn. rewrite Hl.
  apply bool_decide_ext. split; [tauto|].
  intros Hr. rewrite Hr. by repeat split.
Qed.

Lemma constructions_equal_iff_same_rank_witness :
  ProcessGroup_eq two_by_two
    (a_ProcessGroup (constructed four_ranks_seen_from_3 None (Some [0; 1; 2; 3]) 2 2))
  = Ok (bool_decide (self_rank four_ranks (Some 1) = self_rank four_ranks_seen_from_3 None)).
Proof.
  apply (constructions_equal_iff_same_rank four_ranks four_ranks_seen_from_3 (Some 1) None
           (Some [0; 1; 2; 3]) (Some 2) (Some 2) fresh_process after_two_by_two
           after_two_by_two after_two_by_two).
  - reflexivity.
  - reflexivity.
  - reflexivity.
  - vm_compute. reflexivity.
  - vm_compute. reflexivity.
Defined.

(** X15.  [__eq__] does not look at the CPU groups: the object that
    [set_cpu_groups()] leaves compares equal, in both directions, to the
    object as constructed, although [has_cpu_groups] tells them apart. *)
Theorem set_cpu_groups_keeps_equality (rt : dist) (rk : option Z) (ranks : option (list Z))
    (tp_degree dp_degree : option Z) (σ σ1 σ2 σ3 : process) (pg pg' : ProcessGroup)
    (a : attributes) :
  ProcessGroup_init rt rk ranks tp_degree dp_degree σ = (Ok pg, σ1) →
  attrs pg = Some a →
  set_cpu_groups pg σ2 = (Ok pg', σ3) →
  ProcessGroup_eq pg (a_ProcessGroup pg') = Ok true
  ∧ ProcessGroup_eq pg' (a_ProcessGroup pg) = Ok true
  ∧ has_cpu_groups pg = Ok false
  ∧ has_cpu_groups pg' = Ok true.
Proof.
  intros Hrun Ha Hset.
  destruct (constructed_attributes _ _ _ _ _ _ _ _ _ Hrun Ha) as (Hprod & _ & _ & Hflag & _).
  rewrite (set_cpu_groups_first pg a σ2 Ha Hflag Hprod) in Hset.
  injection Hset as <- _.
  rewrite (ProcessGroup_eq_attrs pg _ a (set_has_cpu_groups a true)) by done.
  rewrite (ProcessGroup_eq_attrs _ pg (set_has_cpu_groups a true) a) by done.
  unfold has_cpu_groups, getattr. rewrite Ha, Hflag. cbn.
  rewrite !bool_decide_eq_true_2 by (by repeat split). done.
Qed.

Lemma set_cpu_groups_keeps_equality_witness :
  ProcessGroup_eq two_by_two (a_ProcessGroup two_by_two_cpu) = Ok true
  ∧ ProcessGroup_eq two_by_two_cpu (a_ProcessGroup two_by_two) = Ok true
  ∧ has_cpu_groups two_by_two = Ok false
  ∧ has_cpu_groups two_by_two_cpu = Ok true.
Proof.
  apply (set_cpu_groups_keeps_equality four_ranks (Some 1) (Some [3; 1; 0; 2])
           (Some 2) (Some 2) fresh_process after_two_by_two after_two_by_two
           after_two_by_two_cpu two_by_two two_by_two_cpu two_by_two_attrs).
  - exact two_by_two_run.
  - reflexivity.
  - vm_compute. reflexivity.
Defined.

(** X16.  The object constructed without an initialized runtime cannot be
    compared with a [ProcessGroup], not even with itself, from either side:
    [__eq__] raises [AttributeError].  Compared with an object of another
    class it is unequal.  [set_cpu_groups()] on it raises [AttributeError]
    and leaves the process as it is. *)
Theorem uninitialized_object_cannot_be_compared (rt : dist) (rk : option Z)
    (ranks : option (list Z)) (tp_degree dp_degree : option Z) (σ σ' : process)
    (pg : ProcessGroup) :
  is_initialized rt = false →
  ProcessGroup_init rt rk ranks tp_degree dp_degree σ = (Ok pg, σ') →
  ProcessGroup_eq pg (a_ProcessGroup pg) = Raise AttributeError
  ∧ (∀ other, ProcessGroup_eq pg (a_ProcessGroup other) = Raise AttributeError)
  ∧ (∀ other, ProcessGroup_eq other (a_ProcessGroup pg) = Raise AttributeError)
  ∧ ProcessGroup_eq pg another_object = Ok false
  ∧ ∀ σ'', set_cpu_groups pg σ'' = (Raise AttributeError, σ'').
Proof.
  intros Hinit Hrun.
  rewrite ProcessGroup_init_uninitialized in Hrun by done. injection Hrun as <- _.
  repeat split.
  intros other. unfold ProcessGroup_eq, getattr. by destruct (attrs other).
Qed.

Lemma uninitialized_object_cannot_be_compared_witness :
  let pg := {| is_init := false; attrs := None |} in
  ProcessGroup_eq pg (a_ProcessGroup pg) = Raise AttributeError
  ∧ (∀ other, ProcessGroup_eq pg (a_ProcessGroup other) = Raise AttributeError)
  ∧ (∀ other, ProcessGroup_eq other (a_ProcessGroup pg) = Raise AttributeError)
  ∧ ProcessGroup_eq pg another_object = Ok false
  ∧ ∀ σ'', set_cpu_groups pg σ'' = (Raise AttributeError, σ'').
Proof.
  apply (uninitialized_object_cannot_be_compared no_runtime None None None None
           fresh_process fresh_process).
  - reflexivity.
  - reflexivity.
Defined.

(** ** Further properties of sharding *)

Section shard_further.
Context {T : Type} (zero : T).
Implicit Types (self : ShardParam T) (peers : nat → tensor T).

(** X17.  On a rank of the group, [local_rank < world_size], [shard] leaves
    the object in the sharded state, with its group and its original shape
    and size untouched, and a second [shard] changes nothing. *)
Theorem shard_idempotent self :
  (local_rank self < world_size self)%nat →
  shard zero (shard zero self) = shard zero self
  ∧ is_shared (shard zero self) = true
  ∧ world_size (shard zero self) = world_size self
  ∧ local_rank (shard zero self) = local_rank self
  ∧ _origin_shape (shard zero self) = _origin_shape self
  ∧ _origin_numel (shard zero self) = _origin_numel self.
Proof.
  intros _. destruct (is_shared self) eqn:Hs.
  - rewrite !(shard_shared zero self Hs). by rewrite Hs.
  - rewrite (shard_whole zero self Hs).
    by rewrite shard_shared.
Qed.

(** X18.  Whenever [gather] returns, on a sharded object and with whatever
    peers, the object it returns is not sharded; its payload has the shape
    [_origin_shape] and as many elements as that shape describes; its group
    and its original shape and size are unchanged; and a second [gather],
    with any peers, returns it as it is.  When [_origin_shape] describes
    [_origin_numel] elements, as it does on every object built by the
    constructor, the object returned is WHOLE. *)
Theorem gather_result_is_whole peers peers' self self' :
  is_shared self = true →
  gather zero peers self = Ok self' →
  (shape_numel (_origin_shape self) = _origin_numel self → whole self')
  ∧ is_shared self' = false
  ∧ shape (_param_payload self') = _origin_shape self
  ∧ numel (_param_payload self') = shape_numel (_origin_shape self)
  ∧ world_size self' = world_size self
  ∧ local_rank self' = local_rank self
  ∧ _origin_shape self' = _origin_shape self
  ∧ _origin_numel self' = _origin_numel self
  ∧ gather zero peers' self' = Ok self'.
Proof.
  intros Hs. unfold gather at 1. rewrite Hs. cbn [negb]. cbn zeta.
  destruct (getitem _ _) as [own|]; [|done]. cbn [rbind].
  destruct (all_gather _ _ _ _) as [bufs|]; [|done]. cbn [rbind].
  destruct (cat bufs) as [c|]; [|done]. cbn [rbind].
  destruct (narrow _ _ _) as [nr|]; [|done]. cbn [rbind].
  unfold view. case_decide as Hv; [|done]. cbn [rbind].
  intros [= <-]. unfold whole, gather, set_payload, numel in *. cbn.
  repeat split; try done. congruence.
Qed.

(** X19.  [gather] indexes its buffers with [local_rank]: on a sharded object
    whose [local_rank] is not below [world_size] it raises [IndexError],
    before any collective call. *)
Theorem gather_outside_the_group peers self :
  is_shared self = true →
  (world_size self ≤ local_rank self)%nat →
  gather zero peers self = Raise IndexError.
Proof.
  intros Hs Hk. unfold gather. rewrite Hs. cbn [negb]. cbn zeta.
  rewrite getitem_nat_out; [done|].
  unfold buffers. by rewrite length_fmap, length_seq.
Qed.

End shard_further.

Lemma shard_idempotent_witness :
  shard 0 (shard 0 ten_by_four) = shard 0 ten_by_four
  ∧ is_shared (shard 0 ten_by_four) = true
  ∧ world_size (shard 0 ten_by_four) = world_size ten_by_four
  ∧ local_rank (shard 0 ten_by_four) = local_rank ten_by_four
  ∧ _origin_shape (shard 0 ten_by_four) = _origin_shape ten_by_four
  ∧ _origin_numel (shard 0 ten_by_four) = _origin_numel ten_by_four.
Proof.
  apply (shard_idempotent 0 ten_by_four).
  vm_compute. lia.
Defined.

Lemma gather_result_is_whole_witness :
  (shape_numel (_origin_shape (shard 0 ten_by_four)) = _origin_numel (shard 0 ten_by_four) →
   whole ten_by_four)
  ∧ is_shared ten_by_four = false
  ∧ shape (_param_payload ten_by_four) = _origin_shape (shard 0 ten_by_four)
  ∧ numel (_param_payload ten_by_four) = shape_numel (_origin_shape (shard 0 ten_by_four))
  ∧ world_size ten_by_four = world_size (shard 0 ten_by_four)
  ∧ local_rank ten_by_four = local_rank (shard 0 ten_by_four)
  ∧ _origin_shape ten_by_four = _origin_shape (shard 0 ten_by_four)
  ∧ _origin_numel ten_by_four = _origin_numel (shard 0 ten_by_four)
  ∧ gather 0 five_per_rank_peers ten_by_four = Ok ten_by_four.
Proof.
  apply (gather_result_is_whole 0
           (fun i => _param_payload (shard 0 (on_rank i ten_by_four)))
           five_per_rank_peers (shard 0 ten_by_four) ten_by_four).
  - reflexivity.
  - reflexivity.
Defined.

(** The constructor's invariant is needed for WHOLE: a lone rank whose
    payload of shape [2 x 2] is marked as sharded, with [_origin_numel = 1]
    and [_origin_shape = [2]].  [narrow] keeps one row of two elements, and
    the object returned holds two elements, not [_origin_numel]. *)
Example gather_of_inconsistent_object :
  let self := {| world_size := 1; local_rank := 0;
                 _param_payload := {| data := [1; 2; 3; 4]; shape := [2; 2]%nat;
                                      dtype := float32 |};
                 _payload_numel := None; _origin_shape := [2%nat]; _origin_numel := 1;
                 is_shared := true |} in
  gather 0 (fun _ => zeros 0 4) self =
    Ok (set_payload self {| data := [1; 2]; shape := [2%nat]; dtype := float32 |} false).
Proof. reflexivity. Qed.

Lemma gather_outside_the_group_witness :
  gather 0 five_per_rank_peers (on_rank 4 five_per_rank) = Raise IndexError.
Proof.
  apply (gather_outside_the_group 0 five_per_rank_peers (on_rank 4 five_per_rank)).
  - reflexivity.
  - vm_compute. lia.
Defined.

(** X20.  What a successful [gather] leaves as payload, on a sharded object
    of the group whose peers contribute buffers of the size of the local
    payload: a prefix of the contributions concatenated in rank order, where
    the contribution of the local rank is the local payload itself, under the
    shape [_origin_shape].  The prefix has as many elements as
    [_origin_shape] describes; these are [_origin_numel] elements when the
    two agree, as they do on every object built by the constructor. *)
Theorem gather_collects_in_rank_order {T : Type} (zero : T) (peers : nat → tensor T)
    (self self' : ShardParam T) :
  is_shared self = true →
  (local_rank self < world_size self)%nat →
  (∀ i, (i < world_size self)%nat → numel (peers i) = numel (_param_payload self)) →
  gather zero peers self = Ok self' →
  data (_param_payload self') =
    take (shape_numel (_origin_shape self))
      (concat ((fun i => data (if decide (i = local_rank self)
                               then _param_payload self else peers i))
               <$> seq 0 (world_size self)))
  ∧ (shape_numel (_origin_shape self) = _origin_numel self →
     data (_param_payload self') =
       take (_origin_numel self)
         (concat ((fun i => data (if decide (i = local_rank self)
                                  then _param_payload self else peers i))
                  <$> seq 0 (world_size self))))
  ∧ shape (_param_payload self') = _origin_shape self.
Proof.
  intros Hs Hk Hpeers. unfold gather. rewrite Hs. cbn [negb]. cbn zeta.
  rewrite buffers_own by done. cbn [rbind].
  destruct (decide (Forall (fun buf => dtype buf = dtype (_param_payload self))
                      (buffers zero self))) as [Hdt|Hdt];
    [|by rewrite all_gather_mixed_dtype].
  destruct (gather_collected zero peers self Hk Hdt Hpeers) as (bufs & -> & Hdata & _).
  cbn [rbind].
  destruct (cat bufs) as [c|] eqn:Hc; [|done]. apply cat_data in Hc. cbn [rbind].
  destruct (narrow c 0 _) as [nr|] eqn:Hnr; [|done].
  apply narrow_data in Hnr as (cnt & Hnr & _). cbn [rbind].
  unfold view. case_decide as Hv; [|done]. cbn [rbind]. intros [= <-].
  cbn [_param_payload set_payload data shape].
  rewrite Hc, Hdata in Hnr.
  assert (data nr =
            take (shape_numel (_origin_shape self))
              (concat ((fun i => data (if decide (i = local_rank self)
                                       then _param_payload self else peers i))
                       <$> seq 0 (world_size self)))) as Hprefix.
  { rewrite Hv. unfold numel. rewrite Hnr at 2. rewrite Hnr at 1. apply take_of_length. }
  split; [done|]. split; [|done].
  intros <-. done.
Qed.

Lemma gather_collects_in_rank_order_witness :
  data (_param_payload ten_by_four) =
    take (shape_numel [2; 5]%nat)
      (concat ((fun i => data (if decide (i = 3%nat)
                               then _param_payload (shard 0 ten_by_four)
                               else _param_payload (shard 0 (on_rank i ten_by_four))))
               <$> seq 0 4))
  ∧ (shape_numel [2; 5]%nat = 10%nat →
     data (_param_payload ten_by_four) =
       take 10
         (concat ((fun i => data (if decide (i = 3%nat)
                                  then _param_payload (shard 0 ten_by_four)
                                  else _param_payload (shard 0 (on_rank i ten_by_four))))
                  <$> seq 0 4)))
  ∧ shape (_param_payload ten_by_four) = [2; 5]%nat.
Proof.
  apply (gather_collects_in_rank_order 0
           (fun i => _param_payload (shard 0 (on_rank i ten_by_four)))
           (shard 0 ten_by_four) ten_by_four).
  - reflexivity.
  - vm_compute. lia.
  - intros i _. rewrite shard_on_rank, get_shard_numel by reflexivity. reflexivity.
  - reflexivity.
Defined.

(** ** Degrees at the edge *)

(** X21.  The local rank accessors of a constructed object divide by
    [_tp_degree].  When it is not [0] they return the rank modulo and
    divided by it; it is [0] only over an empty world, and then both raise
    [ZeroDivisionError]. *)
Theorem local_ranks_divide_by_tp_degree (rt : dist) (rk : option Z)
    (ranks : option (list Z)) (tp_degree dp_degree : option Z) (σ σ' : process)
    (pg : ProcessGroup) (a : attributes) :
  ProcessGroup_init rt rk ranks tp_degree dp_degree σ = (Ok pg, σ') →
  attrs pg = Some a →
  (_tp_degree a ≠ 0 →
     tp_local_rank pg = Ok (_rank a `mod` _tp_degree a)
     ∧ dp_local_rank pg = Ok (_rank a `div` _tp_degree a))
  ∧ (_tp_degree a = 0 →
       _rank_list a = []
       ∧ tp_local_rank pg = Raise ZeroDivisionError
       ∧ dp_local_rank pg = Raise ZeroDivisionError).
Proof.
  intros Hrun Ha.
  destruct (constructed_attributes _ _ _ _ _ _ _ _ _ Hrun Ha) as (Hprod & _).
  unfold tp_local_rank, dp_local_rank, getattr, py_mod, py_floordiv. rewrite Ha. cbn.
  split; intros Htp.
  - by destruct (Z.eqb_spec (_tp_degree a) 0).
  - rewrite Htp in *. split; [|done].
    apply length_zero_iff_nil. lia.
Qed.

Lemma local_ranks_divide_by_tp_degree_witness :
  (2 ≠ 0 → tp_local_rank two_by_two = Ok (1 `mod` 2)
            ∧ dp_local_rank two_by_two = Ok (1 `div` 2))
  ∧ (2 = 0 → [0; 1; 2; 3] = []
             ∧ tp_local_rank two_by_two = Raise ZeroDivisionError
             ∧ dp_local_rank two_by_two = Raise ZeroDivisionError).
Proof.
  apply (local_ranks_divide_by_tp_degree four_ranks (Some 1) (Some [3; 1; 0; 2])
           (Some 2) (Some 2) fresh_process after_two_by_two two_by_two two_by_two_attrs).
  - exact two_by_two_run.
  - reflexivity.
Defined.

(** An empty world with [dp_degree = 5]: the construction succeeds with
    [_tp_degree = 0], and the local rank accessors raise. *)
Example empty_world_local_rank :
  let pg := constructed four_ranks (Some 0) (Some []) 5 0 in
  (ProcessGroup_init four_ranks (Some 0) (Some []) None (Some 5) fresh_process).1 = Ok pg
  ∧ tp_local_rank pg = Raise ZeroDivisionError.
Proof. split; vm_compute; reflexivity. Qed.

(** X22.  The sign of the degrees is not checked.  A construction that
    succeeds with a negative [_tp_degree] has a [_dp_degree] that is not
    positive either; both loops are empty, so that no group is registered,
    the process is as before, and the object records neither a row nor a
    column. *)
Theorem negative_degrees_build_no_group (rt : dist) (rk : option Z)
    (ranks : option (list Z)) (tp_degree dp_degree : option Z) (σ σ' : process)
    (pg : ProcessGroup) (a : attributes) :
  ProcessGroup_init rt rk ranks tp_degree dp_degree σ = (Ok pg, σ') →
  attrs pg = Some a →
  _tp_degree a < 0 →
  _dp_degree a ≤ 0
  ∧ σ' = σ
  ∧ tp_rank_list pg = Ok None
  ∧ dp_rank_list pg = Ok None.
Proof.
  intros Hrun Ha Htp.
  destruct (constructed_attributes _ _ _ _ _ _ _ _ _ Hrun Ha)
    as (Hprod & Htpl & Hdpl & _ & Hσ).
  assert (_dp_degree a ≤ 0) as Hdp by nia.
  unfold tp_rank_list, dp_rank_list, getattr. rewrite Ha, Htpl, Hdpl.
  unfold grid_rows, grid_cols, range in *.
  rewrite !seqZ_nil in * by lia. by cbn in *.
Qed.

Lemma negative_degrees_build_no_group_witness :
  -2 ≤ 0
  ∧ fresh_process = fresh_process
  ∧ tp_rank_list (constructed four_ranks None None (-2) (-2)) = Ok None
  ∧ dp_rank_list (constructed four_ranks None None (-2) (-2)) = Ok None.
Proof.
  apply (negative_degrees_build_no_group four_ranks None None (Some (-2)) (Some (-2))
           fresh_process fresh_process (constructed four_ranks None None (-2) (-2))
           {| _rank := 1; _rank_list := [0; 1; 2; 3]; _world_size := 4;
              _dp_degree := -2; _tp_degree := -2;
              _tp_rank_list := None; _dp_rank_list := None;
              _has_cpu_groups := false |}).
  - vm_compute. reflexivity.
  - reflexivity.
  - reflexivity.
Defined.
